(** * VOLK kernel [volk_32f_s32f_x2_clamp_32f]: clamping floats to [min, max]

    A shallow embedding of [kernels/volk/volk_32f_s32f_x2_clamp_32f.h] and the
    properties of its five entry points (the portable scalar loop and the
    aligned and unaligned SSE4.1 and AVX2 loops).

    - A C [float] is its IEEE-754 binary32 bit pattern, a [Z].  The kernel
      only compares floats and copies them, so the model needs no rounding;
      the comparisons are checked against the Standard Library's
      specification of IEEE-754 comparisons ([SpecFloat]).
    - Memory is a list of float cells; a [float*] is the index of a cell.  An
      access outside the list, or an aligned vector access at an index that
      is not a multiple of the vector width, is undefined behaviour in C and
      a fault ([None]) here.
    - Every access is logged, so that what a call reads and writes can be
      stated. *)

From Stdlib Require Import ZArith Lia SpecFloat.
From stdpp Require Import base tactics option list list_numbers.

Local Open Scope Z_scope.

(** ** IEEE-754 binary32 values and their ordered comparisons *)

Module F32.

(** Bit 31 is the sign, bits 30..23 the biased exponent, bits 22..0 the
    fraction. *)
Definition float := Z.

Definition sign (x : float) : bool := Z.testbit x 31.

(** The 31 bits below the sign: exponent and fraction together. *)
Definition magnitude (x : float) : Z := Z.land x 0x7FFFFFFF.

Definition exponent (x : float) : Z := Z.shiftr (magnitude x) 23.

Definition fraction (x : float) : Z := Z.land x 0x7FFFFF.

(** The magnitude of an infinity: exponent 255, fraction 0. *)
Definition inf_magnitude : Z := 0x7F800000.

(** NaN: exponent 255 and a fraction that is not 0. *)
Definition is_nan (x : float) : bool := inf_magnitude <? magnitude x.

(** Finite: exponent below 255 (zeros, subnormals and normals). *)
Definition is_finite (x : float) : bool := magnitude x <? inf_magnitude.

(** For values that are not NaN, binary32 is a sign-magnitude encoding
    whose magnitudes are ordered like the reals they denote; [key] turns it
    into a signed integer with the same order.  Both zeros get key 0. *)
Definition key (x : float) : Z :=
  if sign x then - magnitude x else magnitude x.

(** C's [x < y], SSE's [cmpltps] and AVX's [_CMP_LT_OS]: false as soon as
    one operand is NaN. *)
Definition flt (x y : float) : bool :=
  negb (is_nan x) && negb (is_nan y) && (key x <? key y).

(** C's [x > y]. *)
Definition fgt (x y : float) : bool := flt y x.

(** C's [x <= y]. *)
Definition fle (x y : float) : bool :=
  negb (is_nan x) && negb (is_nan y) && (key x <=? key y).

(** C's [x >= y]. *)
Definition fge (x y : float) : bool := fle y x.

(** The value a bit pattern denotes, in the Standard Library's type of
    IEEE-754 values: [S754_finite s m e] is [(-1)^s * m * 2^e].  Subnormals
    have exponent field 0 and no hidden bit; normals have the hidden bit
    [2^23] and exponent [e - 127 - 23]. *)
Definition decode (x : float) : spec_float :=
  let e := exponent x in
  let f := fraction x in
  if e =? 255 then (if f =? 0 then S754_infinity (sign x) else S754_nan)
  else if e =? 0 then (if f =? 0 then S754_zero (sign x)
                       else S754_finite (sign x) (Z.to_pos f) (-149))
  else S754_finite (sign x) (Z.to_pos (f + 2 ^ 23)) (e - 150).

End F32.

Import F32.

(** ** The scalar expression

    [(x > max) ? max : (x < min) ? min : x], the right-hand side of the
    assignment in every scalar loop of the file, as a function of the value
    [x] of [*in]. *)

Definition clamp (min max x : float) : float :=
  if fgt x max then max else if flt x min then min else x.

(** ** SIMD registers and the intrinsics the kernel uses

    A register is the list of its lanes, lane 0 first: 8 lanes for [__m256],
    4 for [__m128]. *)

Definition __m256 := list float.
Definition __m128 := list float.

(** A comparison sets every bit of a lane it holds in and clears the lane
    otherwise. *)
Definition lane_mask (b : bool) : float := if b then 0xFFFFFFFF else 0.

(** [blendv] takes a lane from [b] when the sign bit of the mask's lane is
    set and from [a] otherwise. *)
Definition blend_lane (a b mask : float) : float :=
  if Z.testbit mask 31 then b else a.

Definition cmplt_lanes (a b : list float) : list float :=
  zip_with (fun x y => lane_mask (flt x y)) a b.

Definition blendv_lanes (a b mask : list float) : list float :=
  zip_with (fun ab m => blend_lane ab.1 ab.2 m) (zip a b) mask.

(** The comparison predicates of [_mm256_cmp_ps]; the kernel uses one. *)
Inductive cmp_predicate := _CMP_LT_OS.

Definition _mm256_set1_ps (a : float) : __m256 := replicate 8 a.
Definition _mm_set1_ps (a : float) : __m128 := replicate 4 a.

Definition _mm256_cmp_ps (a b : __m256) (imm8 : cmp_predicate) : __m256 :=
  match imm8 with _CMP_LT_OS => cmplt_lanes a b end.
Definition _mm_cmplt_ps (a b : __m128) : __m128 := cmplt_lanes a b.

Definition _mm256_blendv_ps (a b mask : __m256) : __m256 := blendv_lanes a b mask.
Definition _mm_blendv_ps (a b mask : __m128) : __m128 := blendv_lanes a b mask.

(** ** Memory, the access log and the monad of the kernels *)

Inductive event :=
  | EvLoad (addr width : nat)
  | EvStore (addr width : nat).

Record state := mkState { heap : list float; trace : list event }.

Definition log (e : event) (s : state) : state :=
  {| heap := heap s; trace := trace s ++ [e] |}.

(** A computation runs on a state and either faults or returns a value and
    the next state. *)
Definition M (A : Type) : Type := state -> option (A * state).

Definition ret {A} (a : A) : M A := fun s => Some (a, s).

Definition bind {A B} (m : M A) (f : A -> M B) : M B :=
  fun s => match m s with Some (a, s') => f a s' | None => None end.

Definition fault {A} : M A := fun _ => None.

Notation "'do' x <- m ; k" := (bind m (fun x => k))
  (at level 10, x name, m at level 100, k at level 200).
Notation "'do' ' p <- m ; k" := (bind m (fun x => match x with p => k end))
  (at level 10, p pattern, m at level 100, k at level 200).
Notation "'exec' m ; k" := (bind m (fun _ => k))
  (at level 10, m at level 100, k at level 200).

(** [*p] read as a float. *)
Definition load (p : nat) : M float :=
  fun s => match heap s !! p with
           | Some x => Some (x, log (EvLoad p 1) s)
           | None => None
           end.

(** [*p = v]. *)
Definition store (p : nat) (v : float) : M unit :=
  fun s => if decide (p < length (heap s))%nat
           then Some (tt, log (EvStore p 1) {| heap := <[p:=v]> (heap s); trace := trace s |})
           else None.

(** Unaligned vector load and store of [W] consecutive cells. *)
Definition loadu_lanes (W p : nat) : M (list float) :=
  fun s => if decide (p + W <= length (heap s))%nat
           then Some (take W (drop p (heap s)), log (EvLoad p W) s)
           else None.

Definition storeu_lanes (W p : nat) (v : list float) : M unit :=
  fun s => if decide (p + W <= length (heap s))%nat
           then Some (tt, log (EvStore p W)
                            {| heap := list_inserts p (take W v) (heap s); trace := trace s |})
           else None.

(** The aligned forms fault on an address that is not a multiple of the
    register size: [W] cells of 4 bytes. *)
Definition load_lanes (W p : nat) : M (list float) :=
  if decide (p `mod` W = 0)%nat then loadu_lanes W p else fault.

Definition store_lanes (W p : nat) (v : list float) : M unit :=
  if decide (p `mod` W = 0)%nat then storeu_lanes W p v else fault.

Definition _mm256_load_ps : nat -> M __m256 := load_lanes 8.
Definition _mm256_loadu_ps : nat -> M __m256 := loadu_lanes 8.
Definition _mm256_store_ps : nat -> __m256 -> M unit := store_lanes 8.
Definition _mm256_storeu_ps : nat -> __m256 -> M unit := storeu_lanes 8.
Definition _mm_load_ps : nat -> M __m128 := load_lanes 4.
Definition _mm_loadu_ps : nat -> M __m128 := loadu_lanes 4.
Definition _mm_store_ps : nat -> __m128 -> M unit := store_lanes 4.
Definition _mm_storeu_ps : nat -> __m128 -> M unit := storeu_lanes 4.

(** ** Loops

    [uint32_t] arithmetic wraps modulo 2^32. *)
Definition wrap32 (z : Z) : Z := z mod 2 ^ 32.

(** [iter k body a] runs [body] [k] times, threading the loop's variables. *)
Fixpoint iter {A} (k : nat) (body : A -> M A) (a : A) : M A :=
  match k with
  | O => ret a
  | S k' => do a' <- body a; iter k' body a'
  end.

(** [for (; number < bound; number++) body], for a body that assigns neither
    [number] nor [bound]: the body runs [bound - number] times when that is
    positive and not at all otherwise. *)
Definition for_lt {A} (number bound : Z) (body : A -> M A) (a : A) : M A :=
  iter (Z.to_nat (bound - number)) body a.

(** ** The kernels

    The loop variables are the two pointers [(out, in)]. *)

(** The statements [*out++ = e; in++;] where [e] is the scalar expression
    over [*in].  Nothing is written between the occurrences of [*in] in [e],
    so they denote one value, read before [*out] is written. *)
Definition scalar_body (min max : float) (p : nat * nat) : M (nat * nat) :=
  let '(out, in_) := p in
  do x <- load in_;
  exec store out (clamp min max x);
  ret (out + 1, in_ + 1)%nat.

(** The register computation between the load and the store of the AVX2
    loops. *)
Definition avx2_clamp_lanes (vmin vmax res : __m256) : __m256 :=
  let max_mask := _mm256_cmp_ps vmax res _CMP_LT_OS in
  let min_mask := _mm256_cmp_ps res vmin _CMP_LT_OS in
  let res := _mm256_blendv_ps res vmax max_mask in
  let res := _mm256_blendv_ps res vmin min_mask in
  res.

(** The register computation between the load and the store of the SSE4.1
    loops. *)
Definition sse4_1_clamp_lanes (vmin vmax res : __m128) : __m128 :=
  let max_mask := _mm_cmplt_ps vmax res in
  let min_mask := _mm_cmplt_ps res vmin in
  let res := _mm_blendv_ps res vmax max_mask in
  let res := _mm_blendv_ps res vmin min_mask in
  res.

Definition volk_32f_s32f_x2_clamp_32f_a_avx2
    (out in_ : nat) (min max : float) (num_points : Z) : M unit :=
  let vmin := _mm256_set1_ps min in
  let vmax := _mm256_set1_ps max in
  let number := 0 in
  let eighth_points := num_points / 8 in
  do ' (out, in_) <- for_lt number eighth_points
         (fun '(out, in_) =>
            do res <- _mm256_load_ps in_;
            exec _mm256_store_ps out (avx2_clamp_lanes vmin vmax res);
            ret (out + 8, in_ + 8)%nat)
         (out, in_);
  let number := wrap32 (eighth_points * 8) in
  exec for_lt number num_points (scalar_body min max) (out, in_);
  ret tt.

Definition volk_32f_s32f_x2_clamp_32f_a_sse4_1
    (out in_ : nat) (min max : float) (num_points : Z) : M unit :=
  let vmin := _mm_set1_ps min in
  let vmax := _mm_set1_ps max in
  let number := 0 in
  let quarter_points := num_points / 4 in
  do ' (out, in_) <- for_lt number quarter_points
         (fun '(out, in_) =>
            do res <- _mm_load_ps in_;
            exec _mm_store_ps out (sse4_1_clamp_lanes vmin vmax res);
            ret (out + 4, in_ + 4)%nat)
         (out, in_);
  let number := wrap32 (quarter_points * 4) in
  exec for_lt number num_points (scalar_body min max) (out, in_);
  ret tt.

Definition volk_32f_s32f_x2_clamp_32f_u_avx2
    (out in_ : nat) (min max : float) (num_points : Z) : M unit :=
  let vmin := _mm256_set1_ps min in
  let vmax := _mm256_set1_ps max in
  let number := 0 in
  let eighth_points := num_points / 8 in
  do ' (out, in_) <- for_lt number eighth_points
         (fun '(out, in_) =>
            do res <- _mm256_loadu_ps in_;
            exec _mm256_storeu_ps out (avx2_clamp_lanes vmin vmax res);
            ret (out + 8, in_ + 8)%nat)
         (out, in_);
  let number := wrap32 (eighth_points * 8) in
  exec for_lt number num_points (scalar_body min max) (out, in_);
  ret tt.

Definition volk_32f_s32f_x2_clamp_32f_u_sse4_1
    (out in_ : nat) (min max : float) (num_points : Z) : M unit :=
  let vmin := _mm_set1_ps min in
  let vmax := _mm_set1_ps max in
  let number := 0 in
  let quarter_points := num_points / 4 in
  do ' (out, in_) <- for_lt number quarter_points
         (fun '(out, in_) =>
            do res <- _mm_loadu_ps in_;
            exec _mm_storeu_ps out (sse4_1_clamp_lanes vmin vmax res);
            ret (out + 4, in_ + 4)%nat)
         (out, in_);
  let number := wrap32 (quarter_points * 4) in
  exec for_lt number num_points (scalar_body min max) (out, in_);
  ret tt.

Definition volk_32f_s32f_x2_clamp_32f_generic
    (out in_ : nat) (min max : float) (num_points : Z) : M unit :=
  let number := 0 in
  exec for_lt number num_points (scalar_body min max) (out, in_);
  ret tt.

(** ** The five entry points as strategies *)

Inductive strategy := Generic | A_AVX2 | A_SSE4_1 | U_AVX2 | U_SSE4_1.

Definition run (st : strategy) : nat -> nat -> float -> float -> Z -> M unit :=
  match st with
  | Generic => volk_32f_s32f_x2_clamp_32f_generic
  | A_AVX2 => volk_32f_s32f_x2_clamp_32f_a_avx2
  | A_SSE4_1 => volk_32f_s32f_x2_clamp_32f_a_sse4_1
  | U_AVX2 => volk_32f_s32f_x2_clamp_32f_u_avx2
  | U_SSE4_1 => volk_32f_s32f_x2_clamp_32f_u_sse4_1
  end.

(** Elements per iteration of the first loop; the scalar strategy has no such
    loop, which is a first loop over groups of one element that runs zero
    times. *)
Definition width (st : strategy) : nat :=
  match st with
  | Generic => 1
  | A_AVX2 | U_AVX2 => 8
  | A_SSE4_1 | U_SSE4_1 => 4
  end.

Definition is_vector (st : strategy) : bool :=
  match st with Generic => false | _ => true end.

Definition is_aligned (st : strategy) : bool :=
  match st with A_AVX2 | A_SSE4_1 => true | _ => false end.

(** The final heap of a run, when it does not fault. *)
Definition heap_after (r : option (unit * state)) : option (list float) :=
  match r with Some (_, s) => Some (heap s) | None => None end.

(** The accesses a run made, when it does not fault. *)
Definition trace_after (r : option (unit * state)) : option (list event) :=
  match r with Some (_, s) => Some (trace s) | None => None end.

(** The contents of the buffer of [num_points] floats at [p]. *)
Definition buffer (s : state) (p : nat) (num_points : Z) : list float :=
  take (Z.to_nat num_points) (drop p (heap s)).

(** The output buffer of a run, when it does not fault. *)
Definition output_after (r : option (unit * state)) (out : nat) (num_points : Z)
    : option (list float) :=
  match r with Some (_, s) => Some (buffer s out num_points) | None => None end.

(** ** Some binary32 constants *)

Module Consts.
Definition zero : float := 0x00000000.
Definition neg_zero : float := 0x80000000.
Definition one : float := 0x3F800000.
Definition neg_one : float := 0xBF800000.
Definition one_half : float := 0x3FC00000.     (* 1.5f *)
Definition neg_one_half : float := 0xBFC00000. (* -1.5f *)
Definition two : float := 0x40000000.
Definition neg_two : float := 0xC0000000.
Definition five : float := 0x40A00000.
Definition infinity : float := 0x7F800000.
Definition neg_infinity : float := 0xFF800000.
Definition qnan : float := 0x7FC00000.
Definition neg_snan : float := 0xFF800001.
End Consts.

(** ** Valid calls

    [num_points] is an [unsigned int]; both buffers lie inside the memory and
    the aligned entry points get aligned pointers (anything else is undefined
    behaviour); and no store reaches an input cell that is still to be read:
    the output buffer starts at or below the input buffer, which includes
    [out == in], or lies after its end.  A call whose output buffer starts
    inside the input buffer is defined in C, but what it computes depends on
    the order of the accesses. *)

Definition valid_call (st : strategy) (s : state) (out in_ : nat) (num_points : Z) : Prop :=
  0 <= num_points < 2 ^ 32 /\
  (in_ + Z.to_nat num_points <= length (heap s))%nat /\
  (out + Z.to_nat num_points <= length (heap s))%nat /\
  ((out <= in_)%nat \/ (in_ + Z.to_nat num_points <= out)%nat) /\
  (is_aligned st = true -> (out `mod` width st = 0)%nat /\ (in_ `mod` width st = 0)%nat).

(** The two buffers of a call share no cell. *)
Definition disjoint (out in_ : nat) (num_points : Z) : Prop :=
  (in_ + Z.to_nat num_points <= out)%nat \/ (out + Z.to_nat num_points <= in_)%nat.

(** ** Specification-level functions *)

(** What the two blends leave in a lane that held [x]. *)
Definition select_lane (min max x : float) : float :=
  blend_lane (blend_lane x max (lane_mask (flt max x))) min (lane_mask (flt x min)).

(** The state after one group of [W] elements: the cells [in .. in+W-1] are
    read, [f] is applied to each, the results go to [out .. out+W-1]. *)
Definition chunk_step (W : nat) (f : float -> float) (out in_ : nat) (s : state) : state :=
  {| heap := list_inserts out (f <$> take W (drop in_ (heap s))) (heap s);
     trace := trace s ++ [EvLoad in_ W; EvStore out W] |}.

Fixpoint chunks (k W : nat) (f : float -> float) (out in_ : nat) (s : state) : state :=
  match k with
  | O => s
  | S k' => chunks k' W f (out + W) (in_ + W) (chunk_step W f out in_ s)
  end.

(** A loop body that handles one group of [W] elements: it needs the [W]
    cells it reads and writes, and aligned pointers if [al] is set. *)
Definition chunk_body (W : nat) (f : float -> float) (al : bool)
    (body : nat * nat -> M (nat * nat)) : Prop :=
  forall out in_ s,
    (in_ + W <= length (heap s))%nat -> (out + W <= length (heap s))%nat ->
    (al = true -> (out `mod` W = 0)%nat /\ (in_ `mod` W = 0)%nat) ->
    body (out, in_) s = Some ((out + W, in_ + W)%nat, chunk_step W f out in_ s).

(** The accesses of [k] groups of [W] elements. *)
Definition chunk_trace (W out in_ k : nat) : list event :=
  flat_map (fun j => [EvLoad (in_ + j * W) W; EvStore (out + j * W) W]) (seq 0 k).

(** The number of iterations of the first loop. *)
Definition full_groups (st : strategy) (num_points : Z) : nat :=
  if is_vector st then Z.to_nat (num_points / Z.of_nat (width st)) else 0%nat.

(** The number of elements the first loop covers. *)
Definition main_points (st : strategy) (num_points : Z) : nat :=
  (full_groups st num_points * width st)%nat.

(** The number of iterations of the scalar loop. *)
Definition tail_points (st : strategy) (num_points : Z) : nat :=
  (Z.to_nat num_points - main_points st num_points)%nat.

Definition final_state (st : strategy) (out in_ : nat) (min max : float)
    (num_points : Z) (s : state) : state :=
  let m := main_points st num_points in
  chunks (tail_points st num_points) 1 (clamp min max) (out + m) (in_ + m)
    (chunks (full_groups st num_points) (width st) (select_lane min max) out in_ s).

(** The function a strategy applies to element [i] of a call. *)
Definition elem (st : strategy) (min max : float) (num_points : Z) (i : nat) : float -> float :=
  if decide (i < main_points st num_points)%nat
  then select_lane min max else clamp min max.

(** The unaligned entry point of the same width. *)
Definition unaligned (st : strategy) : strategy :=
  match st with
  | A_AVX2 => U_AVX2
  | A_SSE4_1 => U_SSE4_1
  | _ => st
  end.



(** ** Example memories *)

Module Examples.
Import Consts.

(** The example of the header's documentation: [x] at cells 0..3, [y] at
    cells 4..7. *)
Definition doc_state : state :=
  mkState [neg_two; neg_one; one; two; zero; zero; zero; zero] [].

(** The same input, to be clamped in place. *)
Definition doc_in_place : state := mkState [neg_two; neg_one; one; two] [].

(** Four times 1.0f, and room for the output at cells 4..7. *)
Definition ones_state : state :=
  mkState [one; one; one; one; zero; zero; zero; zero] [].

(** Five times 1.0f at cells 0..4, and room for the output at cells 8..12. *)
Definition five_ones_state : state :=
  mkState [one; one; one; one; one; zero; zero; zero;
           zero; zero; zero; zero; zero; zero; zero; zero] [].

(** [NaN, 5.0f], and room for the output at cells 2..3. *)
Definition nan_state : state := mkState [qnan; five; zero; zero] [].

(** [2.0f, 0.0f], and room for the output at cells 2..3. *)
Definition bounds_state : state := mkState [two; zero; one; one] [].

(** [-1.5f, 1.5f], and room for the output at cells 2..3. *)
Definition edges_state : state := mkState [neg_one_half; one_half; zero; zero] [].

(** [2.0f, +inf, 5.0f], and room for the output at cells 3..5. *)
Definition high_state : state := mkState [two; infinity; five; zero; zero; zero] [].

(** The lanes of a 256-bit and of a 128-bit register. *)
Definition lanes8 : __m256 :=
  [neg_two; neg_one; one; two; qnan; infinity; neg_zero; neg_infinity].
Definition lanes4 : __m128 := [five; neg_snan; zero; neg_one_half].
End Examples.

(** More example memories. *)
Module Examples2.
Import Consts.

(** [5.0f, -NaN, 0.0f, -0.0f], and room for the output at cells 4..7. *)
Definition lanes_state : state :=
  mkState [five; neg_snan; zero; neg_zero; one; one; one; one] [].

(** Nine inputs at cells 0..8, and room for the output at cells 16..24. *)
Definition wide_state : state :=
  mkState [neg_two; neg_one; one; two; five; zero; neg_zero; infinity;
           one_half; zero; zero; zero; zero; zero; zero; zero;
           zero; zero; zero; zero; zero; zero; zero; zero; zero] [].
End Examples2.

(** Validity of a call on a concrete memory, by evaluation. *)
Ltac valid_call_at :=
  unfold valid_call; simpl;
  repeat match goal with |- _ /\ _ => split end;
  try lia; try (intros _; split; reflexivity); try (left; lia); try (right; lia).

(** Case analysis on the comparisons of two decoded values. *)
Ltac compare_decoded :=
  repeat match goal with
  | |- context [Z.compare ?a ?b] => destruct (Z.compare_spec a b)
  | |- context [Pos.compare_cont Eq ?a ?b] =>
      change (Pos.compare_cont Eq a b) with (Pos.compare a b);
      destruct (Pos.compare_spec a b)
  end; simpl;
  repeat match goal with
  | |- context [?a <? ?b] => destruct (Z.ltb_spec a b)
  | |- context [?a <=? ?b] => destruct (Z.leb_spec a b)
  end; simpl; try reflexivity; try lia.

(** ** Facts about the comparisons *)

Section Comparisons.

Lemma magnitude_split x :
  magnitude x = exponent x * 2 ^ 23 + fraction x /\
  0 <= fraction x < 2 ^ 23 /\ 0 <= exponent x < 256.
Proof.
  unfold exponent, fraction, magnitude.
  change 0x7FFFFFFF with (Z.ones 31). change 0x7FFFFF with (Z.ones 23).
  rewrite !Z.land_ones, Z.shiftr_div_pow2 by lia.
  assert (Hf : x mod 2 ^ 23 = (x mod 2 ^ 31) mod 2 ^ 23).
  { rewrite (Z.div_mod x (2 ^ 31)) at 1 by lia.
    replace (2 ^ 31 * (x / 2 ^ 31) + x mod 2 ^ 31)
      with (x mod 2 ^ 31 + (x / 2 ^ 31 * 2 ^ 8) * 2 ^ 23) by lia.
    apply Z_mod_plus_full. }
  rewrite Hf.
  pose proof (Z.mod_pos_bound x (2 ^ 31) ltac:(lia)).
  pose proof (Z.mod_pos_bound (x mod 2 ^ 31) (2 ^ 23) ltac:(lia)).
  pose proof (Z.div_mod (x mod 2 ^ 31) (2 ^ 23) ltac:(lia)).
  assert (0 <= x mod 2 ^ 31 / 2 ^ 23 < 256).
  { split; [apply Z.div_pos; lia|]. apply Z.div_lt_upper_bound; lia. }
  lia.
Qed.

(** The comparisons on bit patterns are the IEEE-754 comparisons of the
    values the patterns denote. *)
Lemma flt_is_SFltb x y : flt x y = SFltb (decode x) (decode y).
Proof.
  destruct (magnitude_split x) as (Hx & Hfx & Hex).
  destruct (magnitude_split y) as (Hy & Hfy & Hey).
  unfold flt, is_nan, key, inf_magnitude, decode.
  rewrite Hx, Hy.
  generalize (exponent x) (fraction x) (exponent y) (fraction y) Hfx Hex Hfy Hey.
  intros ex fx ey fy Hfx' Hex' Hfy' Hey'.
  destruct (sign x), (sign y);
  destruct (Z.eqb_spec ex 255), (Z.eqb_spec fx 0), (Z.eqb_spec ex 0),
           (Z.eqb_spec ey 255), (Z.eqb_spec fy 0), (Z.eqb_spec ey 0);
  try lia; unfold SFltb, SFcompare; compare_decoded.
Qed.

Lemma fle_is_SFleb x y : fle x y = SFleb (decode x) (decode y).
Proof.
  destruct (magnitude_split x) as (Hx & Hfx & Hex).
  destruct (magnitude_split y) as (Hy & Hfy & Hey).
  unfold fle, is_nan, key, inf_magnitude, decode.
  rewrite Hx, Hy.
  generalize (exponent x) (fraction x) (exponent y) (fraction y) Hfx Hex Hfy Hey.
  intros ex fx ey fy Hfx' Hex' Hfy' Hey'.
  destruct (sign x), (sign y);
  destruct (Z.eqb_spec ex 255), (Z.eqb_spec fx 0), (Z.eqb_spec ex 0),
           (Z.eqb_spec ey 255), (Z.eqb_spec fy 0), (Z.eqb_spec ey 0);
  try lia; unfold SFleb, SFcompare; compare_decoded.
Qed.

(** 1.5f is 12582912 * 2^-23 and -2.0f is -(8388608 * 2^-22). *)
Example decode_constants :
  decode Consts.one_half = S754_finite false 12582912 (-23) /\
  decode Consts.neg_two = S754_finite true 8388608 (-22) /\
  decode Consts.neg_zero = S754_zero true /\
  decode Consts.infinity = S754_infinity false /\
  decode Consts.qnan = S754_nan /\
  decode Consts.neg_snan = S754_nan.
Proof. repeat split; reflexivity. Qed.

Lemma flt_spec x y :
  flt x y = true <-> is_nan x = false /\ is_nan y = false /\ key x < key y.
Proof.
  unfold flt. rewrite !andb_true_iff, !negb_true_iff, Z.ltb_lt. tauto.
Qed.

Lemma fle_spec x y :
  fle x y = true <-> is_nan x = false /\ is_nan y = false /\ key x <= key y.
Proof.
  unfold fle. rewrite !andb_true_iff, !negb_true_iff, Z.leb_le. tauto.
Qed.

Lemma flt_nan_l x y : is_nan x = true -> flt x y = false.
Proof. unfold flt. intros ->. reflexivity. Qed.

Lemma flt_nan_r x y : is_nan y = true -> flt x y = false.
Proof. unfold flt. intros ->. apply andb_false_iff. left. apply andb_false_r. Qed.

Lemma flt_irrefl x : flt x x = false.
Proof.
  apply not_true_is_false. rewrite flt_spec. lia.
Qed.

Lemma flt_trans x y z : flt x y = true -> flt y z = true -> flt x z = true.
Proof. rewrite !flt_spec. intuition lia. Qed.

Lemma flt_fle_trans x y z : flt x y = true -> fle y z = true -> flt x z = true.
Proof. rewrite !flt_spec, fle_spec. intuition lia. Qed.

Lemma flt_asym x y : flt x y = true -> flt y x = false.
Proof.
  intros H. apply not_true_is_false. revert H. rewrite !flt_spec. lia.
Qed.

(** [min <= max] excludes [min > max]; the converse fails for NaN bounds. *)
Lemma fle_not_fgt min max : fle min max = true -> fgt min max = false.
Proof.
  intros H. apply not_true_is_false. revert H. unfold fgt.
  rewrite fle_spec, flt_spec. lia.
Qed.

(** A value cannot be above [max] and below [min] unless [min > max]. *)
Lemma not_both_masks min max x :
  fgt min max = false -> flt max x = true -> flt x min = false.
Proof.
  intros Hinv Hmax. apply not_true_is_false. intros Hmin.
  unfold fgt in Hinv. rewrite (flt_trans _ _ _ Hmax Hmin) in Hinv. discriminate.
Qed.

End Comparisons.

(** ** Facts about the lanes *)

Section Lanes.

Lemma blend_lane_mask a b c : blend_lane a b (lane_mask c) = if c then b else a.
Proof. destruct c; reflexivity. Qed.

Lemma select_lane_eq min max x :
  select_lane min max x =
  if flt x min then min else if flt max x then max else x.
Proof. unfold select_lane. rewrite !blend_lane_mask. reflexivity. Qed.

(** Where the bounds are not inverted, the two blends compute the scalar
    expression. *)
Lemma select_lane_clamp min max x :
  fgt min max = false -> select_lane min max x = clamp min max x.
Proof.
  intros Hinv. rewrite select_lane_eq. unfold clamp, fgt.
  destruct (flt max x) eqn:Hmax.
  - rewrite (not_both_masks _ _ _ Hinv Hmax). reflexivity.
  - reflexivity.
Qed.

Lemma two_blends_replicate min max (res : list float) :
  forall n, (length res <= n)%nat ->
  blendv_lanes
    (blendv_lanes res (replicate n max) (cmplt_lanes (replicate n max) res))
    (replicate n min) (cmplt_lanes res (replicate n min))
  = select_lane min max <$> res.
Proof.
  unfold blendv_lanes, cmplt_lanes.
  induction res as [|x res IH]; intros n Hn.
  - reflexivity.
  - destruct n as [|n]; simpl in Hn; [lia|].
    simpl. f_equal. apply IH. lia.
Qed.

Lemma avx2_clamp_lanes_eq min max (res : __m256) :
  (length res <= 8)%nat ->
  avx2_clamp_lanes (_mm256_set1_ps min) (_mm256_set1_ps max) res
  = select_lane min max <$> res.
Proof. intros H. apply (two_blends_replicate min max res 8 H). Qed.

Lemma sse4_1_clamp_lanes_eq min max (res : __m128) :
  (length res <= 4)%nat ->
  sse4_1_clamp_lanes (_mm_set1_ps min) (_mm_set1_ps max) res
  = select_lane min max <$> res.
Proof. intros H. apply (two_blends_replicate min max res 4 H). Qed.

End Lanes.

(** ** Facts about groups of elements *)

Section Chunks.

Variable W : nat.
Variable f : float -> float.

Lemma chunk_step_length out in_ s :
  length (heap (chunk_step W f out in_ s)) = length (heap s).
Proof. apply length_inserts. Qed.

Lemma chunk_values_length in_ (h : list float) :
  (length (f <$> take W (drop in_ h)) <= W)%nat.
Proof. rewrite length_fmap, length_take. lia. Qed.

Lemma chunk_step_frame out in_ s a :
  (a < out \/ out + W <= a)%nat ->
  heap (chunk_step W f out in_ s) !! a = heap s !! a.
Proof.
  intros [Ha|Ha]; simpl.
  - apply list_lookup_inserts_lt. exact Ha.
  - apply list_lookup_inserts_ge. pose proof (chunk_values_length in_ (heap s)). lia.
Qed.

Lemma chunk_step_lookup out in_ s i :
  (in_ + W <= length (heap s))%nat -> (out + W <= length (heap s))%nat ->
  (i < W)%nat ->
  heap (chunk_step W f out in_ s) !! (out + i)%nat = f <$> heap s !! (in_ + i)%nat.
Proof.
  intros Hin Hout Hi. simpl.
  assert (Hlen : length (f <$> take W (drop in_ (heap s))) = W).
  { rewrite length_fmap, length_take, length_drop. lia. }
  rewrite list_lookup_inserts by lia.
  replace (out + i - out)%nat with i by lia.
  rewrite list_lookup_fmap, lookup_take_lt, lookup_drop by lia.
  reflexivity.
Qed.

Lemma chunks_length k : forall out in_ s,
  length (heap (chunks k W f out in_ s)) = length (heap s).
Proof.
  induction k as [|k IH]; intros out in_ s; simpl.
  - reflexivity.
  - rewrite IH. apply chunk_step_length.
Qed.

Lemma chunks_frame k : forall out in_ s a,
  (a < out \/ out + k * W <= a)%nat ->
  heap (chunks k W f out in_ s) !! a = heap s !! a.
Proof.
  induction k as [|k IH]; intros out in_ s a Ha; simpl.
  - reflexivity.
  - rewrite IH by lia. apply chunk_step_frame. lia.
Qed.

(** Every output cell of the groups holds [f] of the input cell of the same
    index, as that cell was before the first group. *)
Lemma chunks_lookup k : forall out in_ s i,
  (out <= in_ \/ in_ + k * W <= out)%nat ->
  (in_ + k * W <= length (heap s))%nat ->
  (out + k * W <= length (heap s))%nat ->
  (i < k * W)%nat ->
  heap (chunks k W f out in_ s) !! (out + i)%nat = f <$> heap s !! (in_ + i)%nat.
Proof.
  induction k as [|k IH]; intros out in_ s i Hov Hin Hout Hi; simpl in *.
  - lia.
  - destruct (decide (i < W)%nat) as [Hlt|Hge].
    + rewrite chunks_frame by lia.
      apply chunk_step_lookup; lia.
    + replace (out + i)%nat with (out + W + (i - W))%nat by lia.
      rewrite IH; rewrite ?chunk_step_length; try lia.
      replace (in_ + W + (i - W))%nat with (in_ + i)%nat by lia.
      rewrite chunk_step_frame by lia. reflexivity.
Qed.

Lemma chunk_trace_S out in_ k :
  chunk_trace W out in_ (S k) =
  [EvLoad in_ W; EvStore out W] ++ chunk_trace W (out + W) (in_ + W) k.
Proof.
  unfold chunk_trace. simpl seq. simpl flat_map.
  rewrite !Nat.add_0_r. simpl app. do 2 f_equal.
  rewrite <- seq_shift, flat_map_concat_map, map_map, <- flat_map_concat_map.
  apply flat_map_ext. intros j.
  replace (in_ + S j * W)%nat with (in_ + W + j * W)%nat by (simpl; lia).
  replace (out + S j * W)%nat with (out + W + j * W)%nat by (simpl; lia).
  reflexivity.
Qed.

Lemma chunks_trace k : forall out in_ s,
  trace (chunks k W f out in_ s) = trace s ++ chunk_trace W out in_ k.
Proof.
  induction k as [|k IH]; intros out in_ s.
  - simpl. unfold chunk_trace. simpl. rewrite app_nil_r. reflexivity.
  - simpl chunks. rewrite IH, chunk_trace_S. simpl trace.
    rewrite <- app_assoc. reflexivity.
Qed.

(** Every access of [k] groups lies in the first [k * W] cells of its
    buffer. *)
Lemma chunk_trace_bounds out in_ k e :
  e ∈ chunk_trace W out in_ k ->
  match e with
  | EvLoad a w => (in_ <= a /\ a + w <= in_ + k * W)%nat
  | EvStore a w => (out <= a /\ a + w <= out + k * W)%nat
  end.
Proof.
  unfold chunk_trace. rewrite list_elem_of_In, in_flat_map.
  intros (j & Hj & He). apply in_seq in Hj.
  destruct He as [<-|[<-|[]]]; nia.
Qed.

Lemma iter_chunks al body (Hbody : chunk_body W f al body) k : forall out in_ s,
  (in_ + k * W <= length (heap s))%nat ->
  (out + k * W <= length (heap s))%nat ->
  (al = true -> (out `mod` W = 0)%nat /\ (in_ `mod` W = 0)%nat) ->
  iter k body (out, in_) s
  = Some ((out + k * W, in_ + k * W)%nat, chunks k W f out in_ s).
Proof.
  induction k as [|k IH]; intros out in_ s Hin Hout Hal; simpl in *.
  - rewrite !Nat.add_0_r. reflexivity.
  - unfold bind. rewrite Hbody by (try lia; exact Hal).
    rewrite IH; rewrite ?chunk_step_length; try lia.
    + do 3 f_equal; lia.
    + intros Ht. destruct (Hal Ht) as [Ho Hi].
      destruct (decide (W = 0%nat)) as [->|HW]; [simpl in *; lia|].
      split.
      * rewrite <- Nat.Div0.add_mod_idemp_l, Ho. simpl. apply Nat.Div0.mod_same.
      * rewrite <- Nat.Div0.add_mod_idemp_l, Hi. simpl. apply Nat.Div0.mod_same.
Qed.

End Chunks.

(** ** The loop bodies handle one group each *)

Section Bodies.

Variables min max : float.

Lemma scalar_body_chunk : chunk_body 1 (clamp min max) false (scalar_body min max).
Proof.
  intros out in_ s Hin Hout _. unfold scalar_body, bind, load, store.
  destruct (heap s !! in_) as [x|] eqn:Hx.
  2:{ apply lookup_ge_None in Hx. lia. }
  simpl heap. rewrite decide_True by lia.
  unfold chunk_step, log. simpl.
  rewrite (drop_S _ _ _ Hx). simpl.
  rewrite <- app_assoc. reflexivity.
Qed.

Lemma loadu_lanes_ok W p s :
  (p + W <= length (heap s))%nat ->
  loadu_lanes W p s = Some (take W (drop p (heap s)), log (EvLoad p W) s).
Proof. intros H. unfold loadu_lanes. rewrite decide_True by exact H. reflexivity. Qed.

Lemma vector_step W f (al : bool) (lanes : list float -> list float)
    (ld : nat -> M (list float)) (sto : nat -> list float -> M unit) :
  (forall res, (length res <= W)%nat -> lanes res = f <$> res) ->
  (forall p, ld p = if al then load_lanes W p else loadu_lanes W p) ->
  (forall p v, sto p v = if al then store_lanes W p v else storeu_lanes W p v) ->
  chunk_body W f al
    (fun '(out, in_) =>
       do res <- ld in_;
       exec sto out (lanes res);
       ret (out + W, in_ + W)%nat).
Proof.
  intros Hlanes Hld Hsto out in_ s Hin Hout Hal.
  assert (Hl : ld in_ s = loadu_lanes W in_ s).
  { rewrite Hld. destruct al; [|reflexivity].
    unfold load_lanes. rewrite decide_True by (apply Hal; reflexivity). reflexivity. }
  assert (Hs : forall v s', sto out v s' = storeu_lanes W out v s').
  { intros v s'. rewrite Hsto. destruct al; [|reflexivity].
    unfold store_lanes. rewrite decide_True by (apply Hal; reflexivity). reflexivity. }
  unfold bind. rewrite Hl, loadu_lanes_ok by exact Hin.
  rewrite Hs. unfold storeu_lanes. simpl heap.
  rewrite decide_True by exact Hout.
  unfold chunk_step, log, ret. simpl.
  rewrite Hlanes by (rewrite length_take; lia).
  rewrite take_ge by (rewrite length_fmap, length_take; lia).
  rewrite <- app_assoc. reflexivity.
Qed.

(** A first loop over groups of [W] elements followed by the scalar loop
    over the rest: the shape of the four vector kernels. *)
Lemma two_loops (W : nat) al body (s : state) (out in_ : nat) (num_points : Z) :
  (0 < W)%nat ->
  chunk_body W (select_lane min max) al body ->
  0 <= num_points < 2 ^ 32 ->
  (in_ + Z.to_nat num_points <= length (heap s))%nat ->
  (out + Z.to_nat num_points <= length (heap s))%nat ->
  (al = true -> (out `mod` W = 0)%nat /\ (in_ `mod` W = 0)%nat) ->
  let q := Z.to_nat (num_points / Z.of_nat W) in
  (do ' (out, in_) <- for_lt 0 (num_points / Z.of_nat W) body (out, in_);
   exec for_lt (wrap32 (num_points / Z.of_nat W * Z.of_nat W)) num_points
          (scalar_body min max) (out, in_);
   ret tt) s
  = Some (tt, chunks (Z.to_nat num_points - q * W) 1 (clamp min max)
                (out + q * W) (in_ + q * W)
                (chunks q W (select_lane min max) out in_ s)).
Proof.
  intros HW Hbody Hn Hin Hout Hal q.
  assert (Hq : 0 <= num_points / Z.of_nat W) by (apply Z.div_pos; lia).
  assert (Hqn : num_points / Z.of_nat W * Z.of_nat W <= num_points).
  { rewrite Z.mul_comm. apply Z.mul_div_le. lia. }
  assert (HqW : (q * W <= Z.to_nat num_points)%nat) by (subst q; nia).
  unfold for_lt, bind at 1.
  rewrite Z.sub_0_r. fold q.
  rewrite (iter_chunks W _ al body Hbody) by (try lia; exact Hal).
  unfold bind, wrap32. rewrite Z.mod_small by lia.
  replace (Z.to_nat (num_points - num_points / Z.of_nat W * Z.of_nat W))
    with (Z.to_nat num_points - q * W)%nat by (subst q; nia).
  rewrite (iter_chunks 1 _ false _ scalar_body_chunk)
    by (rewrite ?chunks_length; try lia; discriminate).
  reflexivity.
Qed.

End Bodies.

(** ** Every valid call returns, in the state [final_state] describes *)

Section Runs.

Variables (st : strategy) (s : state) (out in_ : nat) (min max : float) (num_points : Z).

Lemma width_pos : (0 < width st)%nat.
Proof. destruct st; simpl; lia. Qed.

Lemma main_points_le : 0 <= num_points -> (main_points st num_points <= Z.to_nat num_points)%nat.
Proof.
  intros Hn. unfold main_points, full_groups.
  destruct (is_vector st); [|lia].
  pose proof width_pos as HW.
  assert (0 <= num_points / Z.of_nat (width st)) by (apply Z.div_pos; lia).
  assert (Z.of_nat (width st) * (num_points / Z.of_nat (width st)) <= num_points)
    by (apply Z.mul_div_le; lia).
  nia.
Qed.

Lemma main_tail_points :
  0 <= num_points ->
  (main_points st num_points + tail_points st num_points = Z.to_nat num_points)%nat.
Proof. intros Hn. pose proof (main_points_le Hn). unfold tail_points. lia. Qed.

(** The scalar loop handles [num_points mod W] elements. *)
Lemma tail_points_mod :
  0 <= num_points ->
  is_vector st = true ->
  tail_points st num_points = Z.to_nat (num_points mod Z.of_nat (width st)).
Proof.
  intros Hn Hv. unfold tail_points, main_points, full_groups. rewrite Hv.
  pose proof width_pos as HW.
  assert (0 <= num_points / Z.of_nat (width st)) by (apply Z.div_pos; lia).
  rewrite Z.mod_eq by lia. nia.
Qed.

Lemma run_final_state :
  valid_call st s out in_ num_points ->
  run st out in_ min max num_points s
  = Some (tt, final_state st out in_ min max num_points s).
Proof.
  intros (Hn & Hin & Hout & _ & Hal). unfold final_state, tail_points, main_points.
  destruct st; simpl run; simpl width in *; simpl is_aligned in *.
  - unfold volk_32f_s32f_x2_clamp_32f_generic, for_lt, bind.
    unfold full_groups. simpl.
    rewrite Z.sub_0_r, !Nat.add_0_r, Nat.sub_0_r.
    rewrite (iter_chunks 1 _ false _ (scalar_body_chunk min max)) by (try lia; discriminate).
    reflexivity.
  - apply (two_loops min max 8 true); try assumption; try lia.
    apply (vector_step 8 _ true (avx2_clamp_lanes _ _) _mm256_load_ps _mm256_store_ps);
      [apply avx2_clamp_lanes_eq | reflexivity | reflexivity].
  - apply (two_loops min max 4 true); try assumption; try lia.
    apply (vector_step 4 _ true (sse4_1_clamp_lanes _ _) _mm_load_ps _mm_store_ps);
      [apply sse4_1_clamp_lanes_eq | reflexivity | reflexivity].
  - apply (two_loops min max 8 false); try assumption; try lia; try discriminate.
    apply (vector_step 8 _ false (avx2_clamp_lanes _ _) _mm256_loadu_ps _mm256_storeu_ps);
      [apply avx2_clamp_lanes_eq | reflexivity | reflexivity].
  - apply (two_loops min max 4 false); try assumption; try lia; try discriminate.
    apply (vector_step 4 _ false (sse4_1_clamp_lanes _ _) _mm_loadu_ps _mm_storeu_ps);
      [apply sse4_1_clamp_lanes_eq | reflexivity | reflexivity].
Qed.

Lemma final_length :
  length (heap (final_state st out in_ min max num_points s)) = length (heap s).
Proof. unfold final_state. rewrite !chunks_length. reflexivity. Qed.

(** Cells outside [out .. out + num_points - 1] keep their value. *)
Lemma final_frame a :
  0 <= num_points ->
  (a < out \/ out + Z.to_nat num_points <= a)%nat ->
  heap (final_state st out in_ min max num_points s) !! a = heap s !! a.
Proof.
  intros Hn Ha. pose proof (main_tail_points Hn) as Hsum.
  unfold final_state. rewrite !chunks_frame; [reflexivity| |].
  - fold (main_points st num_points). lia.
  - lia.
Qed.

(** Output cell [i] holds [elem i] of input cell [i] as it was at the call. *)
Lemma final_lookup i :
  valid_call st s out in_ num_points ->
  (i < Z.to_nat num_points)%nat ->
  heap (final_state st out in_ min max num_points s) !! (out + i)%nat
  = elem st min max num_points i <$> heap s !! (in_ + i)%nat.
Proof.
  intros ((Hn & _) & Hin & Hout & Hov & _) Hi.
  pose proof (main_tail_points Hn) as Hsum.
  unfold final_state, elem.
  set (m := main_points st num_points) in *.
  set (r := tail_points st num_points) in *.
  destruct (decide (i < m)%nat) as [Hlt|Hge].
  - rewrite chunks_frame by lia.
    apply chunks_lookup; fold (main_points st num_points); fold m; lia.
  - replace (out + i)%nat with (out + m + (i - m))%nat by lia.
    rewrite chunks_lookup; rewrite ?chunks_length; try lia.
    replace (in_ + m + (i - m))%nat with (in_ + i)%nat by lia.
    rewrite chunks_frame; [reflexivity|].
    fold (main_points st num_points). fold m. lia.
Qed.

Lemma final_trace :
  trace (final_state st out in_ min max num_points s)
  = trace s
    ++ chunk_trace (width st) out in_ (full_groups st num_points)
    ++ chunk_trace 1 (out + main_points st num_points) (in_ + main_points st num_points)
         (tail_points st num_points).
Proof. unfold final_state. rewrite !chunks_trace, <- app_assoc. reflexivity. Qed.

End Runs.

(** ** Consequences used by several properties *)

Section Consequences.

Variables (st : strategy) (s : state) (out in_ : nat) (min max : float) (num_points : Z).

(** A call that is valid for some entry point is valid for the scalar one. *)
Lemma valid_call_generic :
  valid_call st s out in_ num_points -> valid_call Generic s out in_ num_points.
Proof.
  intros (Hn & Hin & Hout & Hov & _). repeat split; try assumption; try lia.
  all: simpl in *; discriminate.
Qed.

Lemma valid_call_input i :
  valid_call st s out in_ num_points -> (i < Z.to_nat num_points)%nat ->
  exists x, heap s !! (in_ + i)%nat = Some x.
Proof.
  intros (_ & Hin & _) Hi. apply lookup_lt_is_Some_2. lia.
Qed.

Lemma elem_generic i : elem Generic min max num_points i = clamp min max.
Proof.
  unfold elem. destruct (decide _) as [H|_]; [|reflexivity].
  unfold main_points, full_groups in H. simpl in H. lia.
Qed.

Lemma elem_tail i x :
  (main_points st num_points <= i)%nat ->
  elem st min max num_points i x = clamp min max x.
Proof. intros Hi. unfold elem. rewrite decide_False by lia. reflexivity. Qed.

(** Where the bounds are not inverted, every element gets the scalar
    expression, in the first loop as in the second. *)
Lemma elem_clamp i x :
  fgt min max = false -> elem st min max num_points i x = clamp min max x.
Proof.
  intros Hinv. unfold elem. destruct (decide _); [|reflexivity].
  apply select_lane_clamp, Hinv.
Qed.

Lemma elem_nan i x : is_nan x = true -> elem st min max num_points i x = x.
Proof.
  intros Hx. unfold elem. destruct (decide _).
  - rewrite select_lane_eq, (flt_nan_l _ _ Hx), (flt_nan_r _ _ Hx). reflexivity.
  - unfold clamp, fgt. rewrite (flt_nan_l _ _ Hx), (flt_nan_r _ _ Hx). reflexivity.
Qed.

(** A value equal to a bound stays, unless the bounds are inverted. *)
Lemma elem_bound i x :
  fgt min max = false -> x = min \/ x = max ->
  elem st min max num_points i x = x.
Proof.
  intros Hinv Hx. rewrite (elem_clamp _ _ Hinv). unfold clamp, fgt in *.
  destruct Hx as [->| ->].
  - rewrite Hinv, flt_irrefl. reflexivity.
  - rewrite flt_irrefl. destruct (flt max min); [discriminate|reflexivity].
Qed.

(** The heap of a valid call and the heap of the scalar entry point on the
    same call agree on every cell where [elem] is the scalar expression. *)
Lemma final_heap_generic :
  valid_call st s out in_ num_points ->
  (forall i x, (i < Z.to_nat num_points)%nat -> heap s !! (in_ + i)%nat = Some x ->
               elem st min max num_points i x = clamp min max x) ->
  heap (final_state st out in_ min max num_points s)
  = heap (final_state Generic out in_ min max num_points s).
Proof.
  intros Hv Helem. pose proof (valid_call_generic Hv) as Hg.
  assert (Hn : 0 <= num_points) by (destruct Hv as [[? _] _]; assumption).
  apply list_eq. intros a.
  destruct (decide (out <= a < out + Z.to_nat num_points)%nat) as [Ha|Ha].
  - replace a with (out + (a - out))%nat by lia.
    rewrite !final_lookup by (try assumption; lia).
    destruct (valid_call_input (a - out) Hv) as [x Hx]; [lia|].
    rewrite Hx. simpl. rewrite elem_generic, Helem by (try exact Hx; lia).
    reflexivity.
  - rewrite !final_frame by (try assumption; lia). reflexivity.
Qed.

Lemma buffer_lookup p i :
  buffer s p num_points !! i
  = if decide (i < Z.to_nat num_points)%nat then heap s !! (p + i)%nat else None.
Proof.
  unfold buffer. destruct (decide _).
  - rewrite lookup_take_lt, lookup_drop by assumption. reflexivity.
  - apply lookup_take_ge. lia.
Qed.

End Consequences.

(** ** Concrete calls *)

Section Properties.

Import Consts Examples.

(** The example of the header's documentation, on every entry point. *)
Example doc_example st :
  heap_after (run st 4%nat 0%nat neg_one_half one_half 4 doc_state)
  = Some [neg_two; neg_one; one; two; neg_one_half; neg_one; one; one_half].
Proof. destruct st; reflexivity. Qed.

(** The scalar loop reads cell by cell; the SSE4.1 loop, for four points,
    in one group. *)
Example doc_example_traces :
  trace_after (run Generic 4%nat 0%nat neg_one_half one_half 4 doc_state)
  = Some [EvLoad 0 1; EvStore 4 1; EvLoad 1 1; EvStore 5 1;
          EvLoad 2 1; EvStore 6 1; EvLoad 3 1; EvStore 7 1]
  /\ trace_after (run A_SSE4_1 4%nat 0%nat neg_one_half one_half 4 doc_state)
     = Some [EvLoad 0 4; EvStore 4 4].
Proof. split; reflexivity. Qed.

(** With the output buffer one cell above the input buffer, the scalar loop
    reads what it has just written and the vector loop does not. *)
Example shifted_overlap_example :
  heap_after (run Generic 1%nat 0%nat neg_one_half one_half 4 doc_state)
  = Some [neg_two; neg_one_half; neg_one_half; neg_one_half; neg_one_half;
          zero; zero; zero]
  /\ heap_after (run U_SSE4_1 1%nat 0%nat neg_one_half one_half 4 doc_state)
     = Some [neg_two; neg_one_half; neg_one; one; one_half; zero; zero; zero].
Proof. split; reflexivity. Qed.

(** An aligned entry point faults on a pointer that is not aligned. *)
Example misaligned_faults :
  run A_SSE4_1 3%nat 0%nat neg_one_half one_half 4 doc_state = None.
Proof. reflexivity. Qed.

(** ** C1 *)

(** C1: on a valid call the scalar entry point returns, and for every index
    [i] below [num_points] the output cell [i] holds
    [x > max ? max : (x < min ? min : x)] for the value [x] the input cell
    [i] had at the call; the test against [max] comes first. *)
Theorem generic_writes_clamp s out in_ min max num_points :
  valid_call Generic s out in_ num_points ->
  exists s',
    volk_32f_s32f_x2_clamp_32f_generic out in_ min max num_points s = Some (tt, s') /\
    forall i, (i < Z.to_nat num_points)%nat ->
      exists x, heap s !! (in_ + i)%nat = Some x /\
        heap s' !! (out + i)%nat
        = Some (if fgt x max then max else if flt x min then min else x).
Proof.
  intros Hv. eexists. split.
  - apply (run_final_state Generic), Hv.
  - intros i Hi. destruct (valid_call_input Generic s out in_ num_points i Hv Hi) as [x Hx].
    exists x. split; [exact Hx|].
    rewrite final_lookup, Hx by assumption. simpl.
    rewrite elem_generic. reflexivity.
Qed.

Lemma generic_writes_clamp_witness :
  valid_call Generic doc_state 4 0 4 /\
  exists s',
    volk_32f_s32f_x2_clamp_32f_generic 4 0 neg_one_half one_half 4 doc_state = Some (tt, s') /\
    forall i, (i < Z.to_nat 4)%nat ->
      exists x, heap doc_state !! (0 + i)%nat = Some x /\
        heap s' !! (4 + i)%nat
        = Some (if fgt x one_half then one_half
                else if flt x neg_one_half then neg_one_half else x).
Proof.
  split; [valid_call_at|].
  apply (generic_writes_clamp doc_state 4 0 neg_one_half one_half 4). valid_call_at.
Defined.

(** ** C2 *)

(** With [min = 2.0f > max = 0.0f] and four inputs [1.0f], all finite, the
    scalar entry point writes [max] (its first test holds) and the SSE4.1
    entry point writes [min] (the second blend overwrites the first). *)
Lemma strategies_differ_on_inverted_bounds :
  valid_call A_SSE4_1 ones_state 4 0 4 /\
  Forall (fun x => is_finite x = true) (buffer ones_state 0 4) /\
  heap_after (run Generic 4%nat 0%nat two zero 4 ones_state)
  = Some [one; one; one; one; zero; zero; zero; zero] /\
  heap_after (run A_SSE4_1 4%nat 0%nat two zero 4 ones_state)
  = Some [one; one; one; one; two; two; two; two] /\
  heap_after (run A_SSE4_1 4%nat 0%nat two zero 4 ones_state)
  <> heap_after (run Generic 4%nat 0%nat two zero 4 ones_state).
Proof.
  split; [valid_call_at|].
  split; [repeat constructor|].
  split; [reflexivity|]. split; [reflexivity|]. discriminate.
Qed.

(** C2 (amended): for every [num_points], every input array of finite
    floats and every pair of bounds for which [min > max] is false, every
    entry point, on a valid call, leaves the memory the scalar entry point
    leaves on the same call. *)
Theorem strategies_agree st s out in_ min max num_points :
  valid_call st s out in_ num_points ->
  Forall (fun x => is_finite x = true) (buffer s in_ num_points) ->
  fgt min max = false ->
  exists h,
    heap_after (run st out in_ min max num_points s) = Some h /\
    heap_after (run Generic out in_ min max num_points s) = Some h.
Proof.
  intros Hv _ Hinv. eexists.
  rewrite (run_final_state st), (run_final_state Generic)
    by (try exact Hv; apply (valid_call_generic st), Hv).
  simpl. split; [reflexivity|]. f_equal. symmetry.
  apply final_heap_generic; [exact Hv|].
  intros i x _ _. apply elem_clamp, Hinv.
Qed.

Lemma strategies_agree_witness :
  valid_call A_AVX2 five_ones_state 8 0 5 /\
  Forall (fun x => is_finite x = true) (buffer five_ones_state 0 5) /\
  fgt zero two = false /\
  exists h,
    heap_after (run A_AVX2 8%nat 0%nat zero two 5 five_ones_state) = Some h /\
    heap_after (run Generic 8%nat 0%nat zero two 5 five_ones_state) = Some h.
Proof.
  assert (Hv : valid_call A_AVX2 five_ones_state 8 0 5) by valid_call_at.
  assert (Hf : Forall (fun x => is_finite x = true) (buffer five_ones_state 0 5))
    by (repeat constructor).
  assert (Hb : fgt zero two = false) by reflexivity.
  split; [exact Hv|]. split; [exact Hf|]. split; [exact Hb|].
  exact (strategies_agree A_AVX2 five_ones_state 8 0 zero two 5 Hv Hf Hb).
Defined.

(** ** C3 *)

(** C3: where [min <= max], the two blends of the vector loops (both masks
    computed from the loaded register, first the lanes above [max] replaced
    by [max], then the lanes below [min] by [min]) leave in every lane what
    the scalar expression gives for the value the lane held, in the 8-lane
    AVX2 form and in the 4-lane SSE4.1 form. *)
Theorem two_blends_are_clamp min max (res8 : __m256) (res4 : __m128) :
  fle min max = true ->
  length res8 = 8%nat ->
  length res4 = 4%nat ->
  avx2_clamp_lanes (_mm256_set1_ps min) (_mm256_set1_ps max) res8
  = clamp min max <$> res8 /\
  sse4_1_clamp_lanes (_mm_set1_ps min) (_mm_set1_ps max) res4
  = clamp min max <$> res4.
Proof.
  intros Hle H8 H4. apply fle_not_fgt in Hle.
  rewrite avx2_clamp_lanes_eq, sse4_1_clamp_lanes_eq by lia.
  split; apply list_fmap_ext; intros _ x _; apply select_lane_clamp, Hle.
Qed.

Lemma two_blends_are_clamp_witness :
  fle neg_one_half one_half = true /\
  length lanes8 = 8%nat /\
  length lanes4 = 4%nat /\
  avx2_clamp_lanes (_mm256_set1_ps neg_one_half) (_mm256_set1_ps one_half) lanes8
  = clamp neg_one_half one_half <$> lanes8 /\
  sse4_1_clamp_lanes (_mm_set1_ps neg_one_half) (_mm_set1_ps one_half) lanes4
  = clamp neg_one_half one_half <$> lanes4.
Proof.
  split; [reflexivity|]. split; [reflexivity|]. split; [reflexivity|].
  apply (two_blends_are_clamp neg_one_half one_half lanes8 lanes4); reflexivity.
Defined.

(** ** C4 *)

(** The example of the specification: [NaN, 5.0f] clamped to [0, 1] is
    [NaN, 1.0f], on every entry point. *)
Example nan_example st :
  heap_after (run st 2%nat 0%nat zero one 2 nan_state) = Some [qnan; five; qnan; one].
Proof. destruct st; reflexivity. Qed.

(** C4: on a valid call of any entry point, an input cell that holds a NaN
    fails both comparisons, and the output cell of the same index holds
    that NaN, bit for bit. *)
Theorem nan_passes_through st s out in_ min max num_points i x :
  valid_call st s out in_ num_points ->
  (i < Z.to_nat num_points)%nat ->
  heap s !! (in_ + i)%nat = Some x ->
  is_nan x = true ->
  fgt x max = false /\ flt x min = false /\
  exists s',
    run st out in_ min max num_points s = Some (tt, s') /\
    heap s' !! (out + i)%nat = Some x.
Proof.
  intros Hv Hi Hx Hnan.
  split; [apply flt_nan_r, Hnan|]. split; [apply flt_nan_l, Hnan|].
  eexists. split; [apply run_final_state, Hv|].
  rewrite final_lookup, Hx by assumption. simpl.
  rewrite elem_nan by exact Hnan. reflexivity.
Qed.

Lemma nan_passes_through_witness :
  valid_call U_SSE4_1 nan_state 2 0 2 /\
  (0 < Z.to_nat 2)%nat /\
  heap nan_state !! (0 + 0)%nat = Some qnan /\
  is_nan qnan = true /\
  fgt qnan one = false /\ flt qnan zero = false /\
  exists s',
    run U_SSE4_1 2%nat 0%nat zero one 2 nan_state = Some (tt, s') /\
    heap s' !! (2 + 0)%nat = Some qnan.
Proof.
  assert (Hv : valid_call U_SSE4_1 nan_state 2 0 2) by valid_call_at.
  assert (Hi : (0 < Z.to_nat 2)%nat) by (simpl; lia).
  split; [exact Hv|]. split; [exact Hi|].
  split; [reflexivity|]. split; [reflexivity|].
  exact (nan_passes_through U_SSE4_1 nan_state 2 0 zero one 2 0 qnan
           Hv Hi eq_refl eq_refl).
Defined.

(** ** C5 *)

(** With [min = 2.0f > max = 0.0f] and five inputs [1.0f], the SSE4.1 entry
    point handles indices 0..3 in its first loop and index 4 in its scalar
    loop: the same input value comes out as [min] from the first loop and
    as [max] from the scalar loop. *)
Lemma tail_differs_on_inverted_bounds :
  valid_call A_SSE4_1 five_ones_state 8 0 5 /\
  buffer five_ones_state 0 5 = [one; one; one; one; one] /\
  trace_after (run A_SSE4_1 8%nat 0%nat two zero 5 five_ones_state)
  = Some [EvLoad 0 4; EvStore 8 4; EvLoad 4 1; EvStore 12 1] /\
  output_after (run A_SSE4_1 8%nat 0%nat two zero 5 five_ones_state) 8 5
  = Some [two; two; two; two; zero] /\
  two <> zero.
Proof.
  split; [valid_call_at|].
  split; [reflexivity|]. split; [reflexivity|]. split; [reflexivity|]. discriminate.
Qed.

(** C5 (amended): on a valid call of a vector entry point of width [W], the
    first loop makes exactly [num_points / W] iterations, each one load and
    one store of [W] cells, and then the scalar loop handles the remaining
    [num_points mod W] elements one at a time with the scalar expression;
    where [min > max] is false the elements of the first loop hold the
    scalar expression of their inputs too. *)
Theorem vector_groups_then_scalar_tail st s out in_ min max num_points :
  is_vector st = true ->
  valid_call st s out in_ num_points ->
  exists s',
    run st out in_ min max num_points s = Some (tt, s') /\
    let W := width st in
    let q := Z.to_nat (num_points / Z.of_nat W) in
    let r := Z.to_nat (num_points mod Z.of_nat W) in
    (q * W + r = Z.to_nat num_points)%nat /\
    trace s' = trace s ++ chunk_trace W out in_ q
                       ++ chunk_trace 1 (out + q * W) (in_ + q * W) r /\
    (forall i, (q * W <= i < Z.to_nat num_points)%nat ->
       heap s' !! (out + i)%nat = clamp min max <$> heap s !! (in_ + i)%nat) /\
    (fgt min max = false ->
     forall i, (i < q * W)%nat ->
       heap s' !! (out + i)%nat = clamp min max <$> heap s !! (in_ + i)%nat).
Proof.
  intros Hvec Hv. eexists. split; [apply run_final_state, Hv|].
  assert (Hn : 0 <= num_points) by (destruct Hv as [[? _] _]; assumption).
  pose proof (main_tail_points st num_points Hn) as Hsum.
  pose proof (tail_points_mod st num_points Hn Hvec) as Hr.
  assert (Hq : full_groups st num_points
               = Z.to_nat (num_points / Z.of_nat (width st)))
    by (unfold full_groups; rewrite Hvec; reflexivity).
  assert (Hm : main_points st num_points
               = (Z.to_nat (num_points / Z.of_nat (width st)) * width st)%nat)
    by (unfold main_points; rewrite Hq; reflexivity).
  cbv zeta. rewrite final_trace, Hq, Hm, Hr.
  split; [lia|]. split; [reflexivity|]. split.
  - intros i Hi. rewrite final_lookup by (try exact Hv; lia).
    destruct (heap s !! (in_ + i)%nat); [|reflexivity]. simpl.
    rewrite elem_tail by lia. reflexivity.
  - intros Hinv i Hi. rewrite final_lookup by (try exact Hv; lia).
    destruct (heap s !! (in_ + i)%nat); [|reflexivity]. simpl.
    rewrite elem_clamp by exact Hinv. reflexivity.
Qed.

Lemma vector_groups_then_scalar_tail_witness :
  is_vector A_SSE4_1 = true /\
  valid_call A_SSE4_1 five_ones_state 8 0 5 /\
  exists s',
    run A_SSE4_1 8%nat 0%nat zero two 5 five_ones_state = Some (tt, s') /\
    let W := width A_SSE4_1 in
    let q := Z.to_nat (5 / Z.of_nat W) in
    let r := Z.to_nat (5 mod Z.of_nat W) in
    (q * W + r = Z.to_nat 5)%nat /\
    trace s' = trace five_ones_state ++ chunk_trace W 8 0 q
                       ++ chunk_trace 1 (8 + q * W) (0 + q * W) r /\
    (forall i, (q * W <= i < Z.to_nat 5)%nat ->
       heap s' !! (8 + i)%nat = clamp zero two <$> heap five_ones_state !! (0 + i)%nat) /\
    (fgt zero two = false ->
     forall i, (i < q * W)%nat ->
       heap s' !! (8 + i)%nat = clamp zero two <$> heap five_ones_state !! (0 + i)%nat).
Proof.
  assert (Hv : valid_call A_SSE4_1 five_ones_state 8 0 5) by valid_call_at.
  split; [reflexivity|]. split; [exact Hv|].
  exact (vector_groups_then_scalar_tail A_SSE4_1 five_ones_state 8 0 zero two 5
           eq_refl Hv).
Defined.

(** ** C6 *)

(** Clamping the documentation's example in place gives the output of the
    out-of-place call, on every entry point. *)
Example in_place_example st :
  output_after (run st 0%nat 0%nat neg_one_half one_half 4 doc_in_place) 0 4
  = output_after (run st 4%nat 0%nat neg_one_half one_half 4 doc_state) 4 4.
Proof. destruct st; reflexivity. Qed.

(** C6: for every entry point, a valid call whose output pointer is its
    input pointer leaves in that buffer what a valid call with disjoint
    buffers, on the same input values, leaves in its output buffer. *)
Theorem in_place_same_output st s1 p s2 out in_ min max num_points :
  valid_call st s1 p p num_points ->
  valid_call st s2 out in_ num_points ->
  disjoint out in_ num_points ->
  buffer s1 p num_points = buffer s2 in_ num_points ->
  exists o,
    output_after (run st p p min max num_points s1) p num_points = Some o /\
    output_after (run st out in_ min max num_points s2) out num_points = Some o.
Proof.
  intros Hv1 Hv2 _ Hin. eexists.
  rewrite !run_final_state by assumption. simpl.
  split; [reflexivity|]. f_equal. apply list_eq. intros i.
  rewrite !buffer_lookup. destruct (decide _) as [Hi|]; [|reflexivity].
  rewrite !final_lookup by assumption.
  assert (Hi' := f_equal (fun l => l !! i) Hin). simpl in Hi'.
  rewrite !buffer_lookup, !decide_True in Hi' by exact Hi.
  rewrite Hi'. reflexivity.
Qed.

Lemma in_place_same_output_witness :
  valid_call A_SSE4_1 doc_in_place 0 0 4 /\
  valid_call A_SSE4_1 doc_state 4 0 4 /\
  disjoint 4 0 4 /\
  buffer doc_in_place 0 4 = buffer doc_state 0 4 /\
  exists o,
    output_after (run A_SSE4_1 0%nat 0%nat neg_one_half one_half 4 doc_in_place) 0 4
    = Some o /\
    output_after (run A_SSE4_1 4%nat 0%nat neg_one_half one_half 4 doc_state) 4 4
    = Some o.
Proof.
  assert (Hv1 : valid_call A_SSE4_1 doc_in_place 0 0 4) by valid_call_at.
  assert (Hv2 : valid_call A_SSE4_1 doc_state 4 0 4) by valid_call_at.
  assert (Hd : disjoint 4 0 4) by (left; simpl; lia).
  split; [exact Hv1|]. split; [exact Hv2|]. split; [exact Hd|]. split; [reflexivity|].
  exact (in_place_same_output A_SSE4_1 doc_in_place 0 doc_state 4 0
           neg_one_half one_half 4 Hv1 Hv2 Hd eq_refl).
Defined.

(** ** C7 *)

(** With [min = 2.0f > max = 0.0f], the scalar entry point turns an input
    equal to [min] into [max] and an input equal to [max] into [min]. *)
Lemma bound_changed_on_inverted_bounds :
  valid_call Generic bounds_state 2 0 2 /\
  buffer bounds_state 0 2 = [two; zero] /\
  output_after (run Generic 2%nat 0%nat two zero 2 bounds_state) 2 2
  = Some [zero; two] /\
  zero <> two.
Proof.
  split; [valid_call_at|]. split; [reflexivity|]. split; [reflexivity|]. discriminate.
Qed.

(** C7 (amended): for every entry point and every index [i] of a valid
    call for which [min > max] is false, an input cell that holds the bits
    of [min] or the bits of [max] is copied to the output cell of the same
    index. *)
Theorem bounds_are_inclusive st s out in_ min max num_points i x :
  valid_call st s out in_ num_points ->
  fgt min max = false ->
  (i < Z.to_nat num_points)%nat ->
  heap s !! (in_ + i)%nat = Some x ->
  x = min \/ x = max ->
  exists s',
    run st out in_ min max num_points s = Some (tt, s') /\
    heap s' !! (out + i)%nat = Some x.
Proof.
  intros Hv Hinv Hi Hx Hb.
  eexists. split; [apply run_final_state, Hv|].
  rewrite final_lookup, Hx by assumption. simpl.
  rewrite elem_bound by assumption. reflexivity.
Qed.

Lemma bounds_are_inclusive_witness :
  valid_call U_AVX2 edges_state 2 0 2 /\
  fgt neg_one_half one_half = false /\
  (1 < Z.to_nat 2)%nat /\
  heap edges_state !! (0 + 1)%nat = Some one_half /\
  (one_half = neg_one_half \/ one_half = one_half) /\
  exists s',
    run U_AVX2 2%nat 0%nat neg_one_half one_half 2 edges_state = Some (tt, s') /\
    heap s' !! (2 + 1)%nat = Some one_half.
Proof.
  assert (Hv : valid_call U_AVX2 edges_state 2 0 2) by valid_call_at.
  assert (Hi : (1 < Z.to_nat 2)%nat) by (simpl; lia).
  assert (Hb : one_half = neg_one_half \/ one_half = one_half) by (right; reflexivity).
  split; [exact Hv|]. split; [reflexivity|]. split; [exact Hi|].
  split; [reflexivity|]. split; [exact Hb|].
  exact (bounds_are_inclusive U_AVX2 edges_state 2 0 neg_one_half one_half 2 1 one_half
           Hv eq_refl Hi eq_refl Hb).
Defined.

(** ** C8 *)

(** C8: where [min > max], the scalar entry point writes [max] for every
    input value that is at least [min] and at least [max]: its test against
    [max] holds, and it comes first. *)
Theorem inverted_bounds_give_max s out in_ min max num_points i x :
  valid_call Generic s out in_ num_points ->
  fgt min max = true ->
  (i < Z.to_nat num_points)%nat ->
  heap s !! (in_ + i)%nat = Some x ->
  fge x min = true ->
  fge x max = true ->
  fgt x max = true /\
  exists s',
    volk_32f_s32f_x2_clamp_32f_generic out in_ min max num_points s = Some (tt, s') /\
    heap s' !! (out + i)%nat = Some max.
Proof.
  intros Hv Hinv Hi Hx Hmin _.
  assert (Hgt : fgt x max = true) by (apply (flt_fle_trans _ _ _ Hinv Hmin)).
  split; [exact Hgt|].
  eexists. split; [apply (run_final_state Generic), Hv|].
  rewrite final_lookup, Hx by assumption. simpl.
  rewrite elem_generic. unfold clamp. rewrite Hgt. reflexivity.
Qed.

Lemma inverted_bounds_give_max_witness :
  valid_call Generic high_state 3 0 3 /\
  fgt two zero = true /\
  (2 < Z.to_nat 3)%nat /\
  heap high_state !! (0 + 2)%nat = Some five /\
  fge five two = true /\
  fge five zero = true /\
  fgt five zero = true /\
  exists s',
    volk_32f_s32f_x2_clamp_32f_generic 3 0 two zero 3 high_state = Some (tt, s') /\
    heap s' !! (3 + 2)%nat = Some zero.
Proof.
  assert (Hv : valid_call Generic high_state 3 0 3) by valid_call_at.
  assert (Hi : (2 < Z.to_nat 3)%nat) by (simpl; lia).
  split; [exact Hv|]. split; [reflexivity|]. split; [exact Hi|].
  split; [reflexivity|]. split; [reflexivity|]. split; [reflexivity|].
  exact (inverted_bounds_give_max high_state 3 0 two zero 3 2 five
           Hv eq_refl Hi eq_refl eq_refl eq_refl).
Defined.

(** ** C9 *)

(** A call with no points returns at once on every entry point, whatever
    the pointers: the state, memory and log, is the one it started in. *)
Example zero_points_example st out in_ min max s :
  run st out in_ min max 0 s = Some (tt, s).
Proof. destruct st; reflexivity. Qed.

(** C9: a call of any entry point that is valid, or has [num_points = 0],
    returns; every store it makes lies inside
    [out .. out + num_points - 1] and every load inside
    [in .. in + num_points - 1]; every cell outside the output buffer
    keeps its value; and with [num_points = 0] it makes no access and
    leaves the memory as it was. *)
Theorem writes_stay_in_output st s out in_ min max num_points :
  num_points = 0 \/ valid_call st s out in_ num_points ->
  exists s' evs,
    run st out in_ min max num_points s = Some (tt, s') /\
    trace s' = trace s ++ evs /\
    (forall a w, EvStore a w ∈ evs ->
       (out <= a /\ a + w <= out + Z.to_nat num_points)%nat) /\
    (forall a w, EvLoad a w ∈ evs ->
       (in_ <= a /\ a + w <= in_ + Z.to_nat num_points)%nat) /\
    (forall a, (a < out \/ out + Z.to_nat num_points <= a)%nat ->
       heap s' !! a = heap s !! a) /\
    (num_points = 0 -> evs = [] /\ heap s' = heap s).
Proof.
  intros H. destruct (decide (num_points = 0)) as [->|Hnz].
  - exists s, []. split; [destruct st; reflexivity|].
    split; [symmetry; apply app_nil_r|].
    split; [intros a w Hin; inversion Hin|].
    split; [intros a w Hin; inversion Hin|].
    split; [reflexivity|]. intros _. split; reflexivity.
  - destruct H as [?|Hv]; [contradiction|].
    assert (Hn : 0 <= num_points) by (destruct Hv as [[? _] _]; assumption).
    pose proof (main_tail_points st num_points Hn) as Hsum.
    eexists. eexists. split; [apply run_final_state, Hv|].
    split; [apply final_trace|].
    split; [|split; [|split]].
    + intros a w [Hin|Hin]%elem_of_app; apply chunk_trace_bounds in Hin;
        fold (main_points st num_points) in Hin; simpl in Hin; lia.
    + intros a w [Hin|Hin]%elem_of_app; apply chunk_trace_bounds in Hin;
        fold (main_points st num_points) in Hin; simpl in Hin; lia.
    + intros a Ha. apply final_frame; assumption.
    + intros ?. contradiction.
Qed.

Lemma writes_stay_in_output_witness :
  (5 = 0 \/ valid_call U_SSE4_1 five_ones_state 8 0 5) /\
  exists s' evs,
    run U_SSE4_1 8%nat 0%nat neg_one_half one_half 5 five_ones_state = Some (tt, s') /\
    trace s' = trace five_ones_state ++ evs /\
    (forall a w, EvStore a w ∈ evs -> (8 <= a /\ a + w <= 8 + Z.to_nat 5)%nat) /\
    (forall a w, EvLoad a w ∈ evs -> (0 <= a /\ a + w <= 0 + Z.to_nat 5)%nat) /\
    (forall a, (a < 8 \/ 8 + Z.to_nat 5 <= a)%nat ->
       heap s' !! a = heap five_ones_state !! a) /\
    (5 = 0 -> evs = [] /\ heap s' = heap five_ones_state).
Proof.
  assert (H : 5 = 0 \/ valid_call U_SSE4_1 five_ones_state 8 0 5)
    by (right; valid_call_at).
  split; [exact H|].
  exact (writes_stay_in_output U_SSE4_1 five_ones_state 8 0 neg_one_half one_half 5 H).
Defined.

(** ** C10 *)

(** Where [min > max] the scalar expression is not idempotent: with
    [min = 2.0f] and [max = 0.0f], 1.0f goes to 0.0f and 0.0f to 2.0f. *)
Example clamp_twice_inverted :
  clamp two zero one = zero /\ clamp two zero zero = two.
Proof. split; reflexivity. Qed.

(** C10: where [min <= max], the scalar expression applied twice with the
    same bounds gives what it gives applied once, for every value, NaN
    included. *)
Theorem clamp_idempotent min max x :
  fle min max = true ->
  clamp min max (clamp min max x) = clamp min max x.
Proof.
  intros Hle. pose proof (fle_not_fgt _ _ Hle) as Hinv. unfold fgt in Hinv.
  unfold clamp, fgt.
  destruct (flt max x) eqn:Hmax.
  - rewrite flt_irrefl, Hinv. reflexivity.
  - destruct (flt x min) eqn:Hmin.
    + rewrite Hinv, flt_irrefl. reflexivity.
    + rewrite Hmax, Hmin. reflexivity.
Qed.

Lemma clamp_idempotent_witness :
  fle neg_zero zero = true /\
  clamp neg_zero zero (clamp neg_zero zero qnan) = clamp neg_zero zero qnan /\
  clamp neg_zero zero (clamp neg_zero zero five) = clamp neg_zero zero five.
Proof.
  assert (Hle : fle neg_zero zero = true) by reflexivity.
  split; [exact Hle|]. split.
  - exact (clamp_idempotent neg_zero zero qnan Hle).
  - exact (clamp_idempotent neg_zero zero five Hle).
Defined.

End Properties.

(** ** Further facts about the comparisons and the scalar expression *)

Section ClampFacts.

Lemma flt_false_key x y :
  is_nan x = false -> is_nan y = false -> flt x y = false -> key y <= key x.
Proof.
  intros Hx Hy H. destruct (Z.le_gt_cases (key y) (key x)) as [?|Hlt]; [assumption|].
  assert (flt x y = true) by (apply flt_spec; auto). congruence.
Qed.

Lemma fle_not_flt x y : fle x y = true -> flt y x = false.
Proof. apply fle_not_fgt. Qed.

(** The scalar expression and the two blends return the value, [min] or
    [max], never anything else. *)
Lemma clamp_cases min max x :
  clamp min max x = x \/ clamp min max x = min \/ clamp min max x = max.
Proof.
  unfold clamp. destruct (fgt x max); [auto|]. destruct (flt x min); auto.
Qed.

Lemma select_lane_cases min max x :
  select_lane min max x = x \/ select_lane min max x = min \/ select_lane min max x = max.
Proof.
  rewrite select_lane_eq. destruct (flt x min); [auto|]. destruct (flt max x); auto.
Qed.

Lemma clamp_in_range min max x :
  fle min x = true -> fle x max = true -> clamp min max x = x.
Proof.
  intros Hlo Hhi. unfold clamp, fgt.
  rewrite (fle_not_flt _ _ Hhi), (fle_not_flt _ _ Hlo). reflexivity.
Qed.

Lemma select_lane_in_range min max x :
  fle min x = true -> fle x max = true -> select_lane min max x = x.
Proof.
  intros Hlo Hhi. rewrite select_lane_eq.
  rewrite (fle_not_flt _ _ Hhi), (fle_not_flt _ _ Hlo). reflexivity.
Qed.

(** Where [min <= max], the scalar expression of a value that is not NaN
    lies between the bounds. *)
Lemma clamp_between min max x :
  fle min max = true -> is_nan x = false ->
  fle min (clamp min max x) = true /\ fle (clamp min max x) max = true.
Proof.
  intros Hle Hx. pose proof Hle as Hle'. apply fle_spec in Hle' as (Hmin & Hmax & Hkey).
  unfold clamp, fgt.
  destruct (flt max x) eqn:H1.
  - rewrite !fle_spec. repeat split; auto; lia.
  - apply flt_false_key in H1; [|assumption..].
    destruct (flt x min) eqn:H2.
    + rewrite !fle_spec. repeat split; auto; lia.
    + apply flt_false_key in H2; [|assumption..].
      rewrite !fle_spec. repeat split; auto; lia.
Qed.

(** Where [min <= max], the scalar expression keeps the order of two
    values. *)
Lemma clamp_monotone min max x y :
  fle min max = true -> fle x y = true ->
  fle (clamp min max x) (clamp min max y) = true.
Proof.
  intros Hle Hxy.
  apply fle_spec in Hle as (Hmin & Hmax & Hkey).
  apply fle_spec in Hxy as (Hx & Hy & Hkxy).
  unfold clamp, fgt.
  destruct (flt max x) eqn:X1; destruct (flt max y) eqn:Y1;
  destruct (flt x min) eqn:X2; destruct (flt y min) eqn:Y2;
  repeat match goal with
  | H : flt _ _ = true |- _ => apply flt_spec in H as (_ & _ & H)
  | H : flt _ _ = false |- _ => apply flt_false_key in H; [|assumption..]
  end;
  rewrite fle_spec; repeat split; auto; lia.
Qed.

(** The scalar expression applied to its own result, for bounds with
    [min <= max]. *)
Lemma clamp_clamp min max x :
  fle min max = true -> clamp min max (clamp min max x) = clamp min max x.
Proof.
  intros Hle. destruct (is_nan x) eqn:Hx.
  - assert (Hid : clamp min max x = x).
    { unfold clamp, fgt. rewrite (flt_nan_r _ _ Hx), (flt_nan_l _ _ Hx). reflexivity. }
    rewrite !Hid. reflexivity.
  - destruct (clamp_between min max x Hle Hx) as [Hlo Hhi].
    apply clamp_in_range; assumption.
Qed.

End ClampFacts.

(** ** Further facts about groups, logs and runs *)

Section RunFacts.

Lemma chunks_app W f k1 k2 : forall out in_ s,
  chunks (k1 + k2) W f out in_ s
  = chunks k2 W f (out + k1 * W) (in_ + k1 * W) (chunks k1 W f out in_ s).
Proof.
  induction k1 as [|k1 IH]; intros out in_ s; simpl.
  - rewrite !Nat.add_0_r. reflexivity.
  - rewrite IH. f_equal; lia.
Qed.





Lemma valid_call_unaligned st s out in_ num_points :
  valid_call st s out in_ num_points ->
  valid_call (unaligned st) s out in_ num_points.
Proof.
  intros (Hn & Hin & Hout & Hov & _). repeat split; try assumption; try lia.
  all: destruct st; simpl in *; discriminate.
Qed.

Lemma final_state_unaligned st out in_ min max num_points s :
  final_state (unaligned st) out in_ min max num_points s
  = final_state st out in_ min max num_points s.
Proof. destruct st; reflexivity. Qed.

Lemma elem_cases st min max num_points i x :
  elem st min max num_points i x = x \/
  elem st min max num_points i x = min \/
  elem st min max num_points i x = max.
Proof.
  unfold elem. destruct (decide _); [apply select_lane_cases|apply clamp_cases].
Qed.

Lemma elem_in_range st min max num_points i x :
  fle min x = true -> fle x max = true -> elem st min max num_points i x = x.
Proof.
  intros Hlo Hhi. unfold elem.
  destruct (decide _); [apply select_lane_in_range|apply clamp_in_range]; assumption.
Qed.

Lemma elem_main st min max num_points i x :
  (i < main_points st num_points)%nat ->
  elem st min max num_points i x = select_lane min max x.
Proof. intros Hi. unfold elem. rewrite decide_True by exact Hi. reflexivity. Qed.

(** A call on [n1] points, [n1] a multiple of the width, and then a call on
    the next [n2] points, against one call on [n1 + n2] points. *)
Lemma final_state_split st out in_ min max n1 n2 s :
  0 <= n1 -> 0 <= n2 ->
  n1 mod Z.of_nat (width st) = 0 ->
  final_state st (out + Z.to_nat n1) (in_ + Z.to_nat n1) min max n2
    (final_state st out in_ min max n1 s)
  = final_state st out in_ min max (n1 + n2) s.
Proof.
  intros H1 H2 Hmod. pose proof (width_pos st) as HW.
  unfold final_state, tail_points, main_points, full_groups.
  destruct (is_vector st).
  - set (W := width st) in *.
    assert (Hn1 : n1 = n1 / Z.of_nat W * Z.of_nat W).
    { pose proof (Z.div_mod n1 (Z.of_nat W) ltac:(lia)). lia. }
    assert (Hq : (n1 + n2) / Z.of_nat W = n1 / Z.of_nat W + n2 / Z.of_nat W).
    { rewrite Hn1 at 1. apply Z.div_add_l. lia. }
    assert (Hq1 : 0 <= n1 / Z.of_nat W) by (apply Z.div_pos; lia).
    assert (Hq2 : 0 <= n2 / Z.of_nat W) by (apply Z.div_pos; lia).
    assert (Hn2 : Z.of_nat W * (n2 / Z.of_nat W) <= n2) by (apply Z.mul_div_le; lia).
    rewrite Hq, Z2Nat.inj_add by assumption.
    set (q1 := Z.to_nat (n1 / Z.of_nat W)) in *.
    set (q2 := Z.to_nat (n2 / Z.of_nat W)) in *.
    assert (Hm1 : Z.to_nat n1 = (q1 * W)%nat) by (subst q1; nia).
    assert (Hm2 : (q2 * W <= Z.to_nat n2)%nat) by (subst q2; nia).
    rewrite Z2Nat.inj_add by assumption. rewrite Hm1.
    replace (q1 * W - q1 * W)%nat with 0%nat by lia. simpl chunks at 3.
    rewrite chunks_app.
    f_equal; lia.
  - simpl. rewrite !Nat.add_0_r, !Nat.sub_0_r.
    rewrite Z2Nat.inj_add by assumption. rewrite chunks_app.
    f_equal; lia.
Qed.

End RunFacts.

(** ** Further properties of the entry points *)

Section MoreProperties.

Import Consts Examples Examples2.

(** Where [min <= max], every entry point, on a valid call, leaves in the
    output cell of an input that is not NaN a value between [min] and
    [max]. *)
Theorem output_within_bounds st s out in_ min max num_points i x :
  valid_call st s out in_ num_points ->
  fle min max = true ->
  (i < Z.to_nat num_points)%nat ->
  heap s !! (in_ + i)%nat = Some x ->
  is_nan x = false ->
  exists s' y,
    run st out in_ min max num_points s = Some (tt, s') /\
    heap s' !! (out + i)%nat = Some y /\
    fle min y = true /\ fle y max = true.
Proof.
  intros Hv Hle Hi Hx Hnan.
  exists (final_state st out in_ min max num_points s), (clamp min max x).
  split; [apply run_final_state, Hv|]. split.
  - rewrite final_lookup, Hx by assumption. simpl.
    rewrite elem_clamp by (apply fle_not_fgt, Hle). reflexivity.
  - apply clamp_between; assumption.
Qed.

Lemma output_within_bounds_witness :
  valid_call A_SSE4_1 doc_state 4 0 4 /\
  fle neg_one_half one_half = true /\
  (3 < Z.to_nat 4)%nat /\
  heap doc_state !! (0 + 3)%nat = Some two /\
  is_nan two = false /\
  exists s' y,
    run A_SSE4_1 4%nat 0%nat neg_one_half one_half 4 doc_state = Some (tt, s') /\
    heap s' !! (4 + 3)%nat = Some y /\
    fle neg_one_half y = true /\ fle y one_half = true.
Proof.
  assert (Hv : valid_call A_SSE4_1 doc_state 4 0 4) by valid_call_at.
  assert (Hi : (3 < Z.to_nat 4)%nat) by (simpl; lia).
  split; [exact Hv|]. split; [reflexivity|]. split; [exact Hi|].
  split; [reflexivity|]. split; [reflexivity|].
  exact (output_within_bounds A_SSE4_1 doc_state 4 0 neg_one_half one_half 4 3 two
           Hv eq_refl Hi eq_refl eq_refl).
Defined.

(** On a valid call of any entry point, an input with [min <= x] and
    [x <= max] is copied bit for bit: a zero keeps its sign even where the
    bound is the other zero. *)
Theorem in_range_value_copied st s out in_ min max num_points i x :
  valid_call st s out in_ num_points ->
  (i < Z.to_nat num_points)%nat ->
  heap s !! (in_ + i)%nat = Some x ->
  fle min x = true ->
  fle x max = true ->
  exists s',
    run st out in_ min max num_points s = Some (tt, s') /\
    heap s' !! (out + i)%nat = Some x.
Proof.
  intros Hv Hi Hx Hlo Hhi.
  eexists. split; [apply run_final_state, Hv|].
  rewrite final_lookup, Hx by assumption. simpl.
  rewrite elem_in_range by assumption. reflexivity.
Qed.

Lemma in_range_value_copied_witness :
  valid_call U_SSE4_1 lanes_state 4 0 4 /\
  (3 < Z.to_nat 4)%nat /\
  heap lanes_state !! (0 + 3)%nat = Some neg_zero /\
  fle zero neg_zero = true /\
  fle neg_zero one = true /\
  exists s',
    run U_SSE4_1 4%nat 0%nat zero one 4 lanes_state = Some (tt, s') /\
    heap s' !! (4 + 3)%nat = Some neg_zero.
Proof.
  assert (Hv : valid_call U_SSE4_1 lanes_state 4 0 4) by valid_call_at.
  assert (Hi : (3 < Z.to_nat 4)%nat) by (simpl; lia).
  split; [exact Hv|]. split; [exact Hi|].
  split; [reflexivity|]. split; [reflexivity|]. split; [reflexivity|].
  exact (in_range_value_copied U_SSE4_1 lanes_state 4 0 zero one 4 3 neg_zero
           Hv Hi eq_refl eq_refl eq_refl).
Defined.

(** On a valid call of any entry point, with any bounds, an output cell
    holds the bits of its input, of [min] or of [max]: no other value is ever
    written. *)
Theorem output_is_input_or_bound st s out in_ min max num_points i x :
  valid_call st s out in_ num_points ->
  (i < Z.to_nat num_points)%nat ->
  heap s !! (in_ + i)%nat = Some x ->
  exists s' y,
    run st out in_ min max num_points s = Some (tt, s') /\
    heap s' !! (out + i)%nat = Some y /\
    (y = x \/ y = min \/ y = max).
Proof.
  intros Hv Hi Hx.
  exists (final_state st out in_ min max num_points s),
         (elem st min max num_points i x).
  split; [apply run_final_state, Hv|]. split.
  - rewrite final_lookup, Hx by assumption. reflexivity.
  - apply elem_cases.
Qed.

Lemma output_is_input_or_bound_witness :
  valid_call A_AVX2 five_ones_state 8 0 5 /\
  (4 < Z.to_nat 5)%nat /\
  heap five_ones_state !! (0 + 4)%nat = Some one /\
  exists s' y,
    run A_AVX2 8%nat 0%nat two zero 5 five_ones_state = Some (tt, s') /\
    heap s' !! (8 + 4)%nat = Some y /\
    (y = one \/ y = two \/ y = zero).
Proof.
  assert (Hv : valid_call A_AVX2 five_ones_state 8 0 5) by valid_call_at.
  assert (Hi : (4 < Z.to_nat 5)%nat) by (simpl; lia).
  split; [exact Hv|]. split; [exact Hi|]. split; [reflexivity|].
  exact (output_is_input_or_bound A_AVX2 five_ones_state 8 0 two zero 5 4 one
           Hv Hi eq_refl).
Defined.

(** A valid call of an aligned entry point and the same call of the
    unaligned entry point of that width end in the same state: the same
    memory and the same accesses, for any bounds. *)
Theorem aligned_unaligned_same_run st s out in_ min max num_points :
  is_aligned st = true ->
  valid_call st s out in_ num_points ->
  exists s',
    run st out in_ min max num_points s = Some (tt, s') /\
    run (unaligned st) out in_ min max num_points s = Some (tt, s').
Proof.
  intros _ Hv. eexists. split; [apply run_final_state, Hv|].
  rewrite (run_final_state (unaligned st)) by (apply valid_call_unaligned, Hv).
  rewrite final_state_unaligned. reflexivity.
Qed.

Lemma aligned_unaligned_same_run_witness :
  is_aligned A_AVX2 = true /\
  valid_call A_AVX2 wide_state 16 0 9 /\
  exists s',
    run A_AVX2 16%nat 0%nat two zero 9 wide_state = Some (tt, s') /\
    run (unaligned A_AVX2) 16%nat 0%nat two zero 9 wide_state = Some (tt, s').
Proof.
  assert (Hv : valid_call A_AVX2 wide_state 16 0 9) by valid_call_at.
  split; [reflexivity|]. split; [exact Hv|].
  exact (aligned_unaligned_same_run A_AVX2 wide_state 16 0 two zero 9 eq_refl Hv).
Defined.

(** With fewer points than the width, the first loop of a vector entry point
    makes no iteration and the call is the call of the scalar entry point: the
    same result, faults included, whatever the alignment of the pointers. *)
Theorem short_call_runs_scalar st s out in_ min max num_points :
  0 <= num_points < Z.of_nat (width st) ->
  run st out in_ min max num_points s = run Generic out in_ min max num_points s.
Proof.
  intros Hn. destruct st; simpl in Hn; simpl run.
  - reflexivity.
  - unfold volk_32f_s32f_x2_clamp_32f_a_avx2. rewrite Z.div_small by lia. reflexivity.
  - unfold volk_32f_s32f_x2_clamp_32f_a_sse4_1. rewrite Z.div_small by lia. reflexivity.
  - unfold volk_32f_s32f_x2_clamp_32f_u_avx2. rewrite Z.div_small by lia. reflexivity.
  - unfold volk_32f_s32f_x2_clamp_32f_u_sse4_1. rewrite Z.div_small by lia. reflexivity.
Qed.

Lemma short_call_runs_scalar_witness :
  0 <= 4 < Z.of_nat (width A_AVX2) /\
  run A_AVX2 3%nat 1%nat neg_one_half one_half 4 doc_state
  = run Generic 3%nat 1%nat neg_one_half one_half 4 doc_state.
Proof.
  assert (Hn : 0 <= 4 < Z.of_nat (width A_AVX2)) by (simpl; lia).
  split; [exact Hn|].
  exact (short_call_runs_scalar A_AVX2 doc_state 3 1 neg_one_half one_half 4 Hn).
Defined.

(** An aligned entry point called with at least one full group of points and
    an output or input pointer that is not aligned faults: its first
    iteration makes an aligned load and an aligned store. *)
Theorem misaligned_pointer_faults st s out in_ min max num_points :
  is_aligned st = true ->
  Z.of_nat (width st) <= num_points ->
  (out `mod` width st <> 0 \/ in_ `mod` width st <> 0)%nat ->
  run st out in_ min max num_points s = None.
Proof.
  intros Hal Hn Hmis. destruct st; try discriminate; cbn [width] in Hn, Hmis; simpl run.
  - unfold volk_32f_s32f_x2_clamp_32f_a_avx2, for_lt.
    assert (Hq : 1 <= num_points / 8) by (apply Z.div_le_lower_bound; lia).
    destruct (Z.to_nat (num_points / 8 - 0)) as [|k] eqn:Hk; [lia|].
    unfold bind at 1. simpl iter. unfold bind at 1. unfold bind at 1.
    unfold _mm256_load_ps, load_lanes.
    destruct (decide (in_ `mod` 8 = 0)%nat) as [Hin|Hin]; [|reflexivity].
    destruct (loadu_lanes 8 in_ s) as [[res s1]|]; [|reflexivity].
    unfold bind at 1. unfold _mm256_store_ps, store_lanes.
    rewrite decide_False by (destruct Hmis; congruence). reflexivity.
  - unfold volk_32f_s32f_x2_clamp_32f_a_sse4_1, for_lt.
    assert (Hq : 1 <= num_points / 4) by (apply Z.div_le_lower_bound; lia).
    destruct (Z.to_nat (num_points / 4 - 0)) as [|k] eqn:Hk; [lia|].
    unfold bind at 1. simpl iter. unfold bind at 1. unfold bind at 1.
    unfold _mm_load_ps, load_lanes.
    destruct (decide (in_ `mod` 4 = 0)%nat) as [Hin|Hin]; [|reflexivity].
    destruct (loadu_lanes 4 in_ s) as [[res s1]|]; [|reflexivity].
    unfold bind at 1. unfold _mm_store_ps, store_lanes.
    rewrite decide_False by (destruct Hmis; congruence). reflexivity.
Qed.

Lemma misaligned_pointer_faults_witness :
  is_aligned A_SSE4_1 = true /\
  Z.of_nat (width A_SSE4_1) <= 4 /\
  (3 `mod` width A_SSE4_1 <> 0 \/ 0 `mod` width A_SSE4_1 <> 0)%nat /\
  run A_SSE4_1 3%nat 0%nat neg_one_half one_half 4 doc_state = None.
Proof.
  assert (Hn : Z.of_nat (width A_SSE4_1) <= 4) by (simpl; lia).
  assert (Hm : (3 `mod` width A_SSE4_1 <> 0 \/ 0 `mod` width A_SSE4_1 <> 0)%nat)
    by (left; simpl; lia).
  split; [reflexivity|]. split; [exact Hn|]. split; [exact Hm|].
  exact (misaligned_pointer_faults A_SSE4_1 doc_state 3 0 neg_one_half one_half 4
           eq_refl Hn Hm).
Defined.



(** A valid call on [n1 + n2] points can be split: a call on the first [n1]
    points, [n1] a multiple of the width of the entry point, followed by a
    call on the next [n2] points with both pointers advanced by [n1], ends
    in the same state, memory and accesses. *)
Theorem split_call st s out in_ min max n1 n2 :
  0 <= n1 -> 0 <= n2 ->
  n1 mod Z.of_nat (width st) = 0 ->
  valid_call st s out in_ (n1 + n2) ->
  exists s1 s2,
    run st out in_ min max n1 s = Some (tt, s1) /\
    run st (out + Z.to_nat n1) (in_ + Z.to_nat n1) min max n2 s1 = Some (tt, s2) /\
    run st out in_ min max (n1 + n2) s = Some (tt, s2).
Proof.
  intros H1 H2 Hmod Hv. pose proof (width_pos st) as HW.
  pose proof Hv as (Hn & Hin & Hout & Hov & Hal).
  rewrite Z2Nat.inj_add in Hin, Hout, Hov by assumption.
  assert (Hv1 : valid_call st s out in_ n1).
  { unfold valid_call.
    split; [lia|]. split; [lia|]. split; [lia|]. split; [lia|]. exact Hal. }
  assert (Hv2 : valid_call st (final_state st out in_ min max n1 s)
                  (out + Z.to_nat n1) (in_ + Z.to_nat n1) n2).
  { unfold valid_call. rewrite final_length.
    split; [lia|]. split; [lia|]. split; [lia|]. split; [lia|].
    intros Ht. split.
    - destruct (Hal Ht) as [Ho _].
      apply Nat.Div0.mod_divides in Ho as [c ->].
      apply Nat.Div0.mod_divides.
      exists (c + Z.to_nat (n1 / Z.of_nat (width st)))%nat.
      pose proof (Z.div_mod n1 (Z.of_nat (width st)) ltac:(lia)).
      assert (0 <= n1 / Z.of_nat (width st)) by (apply Z.div_pos; lia). nia.
    - destruct (Hal Ht) as [_ Hi].
      apply Nat.Div0.mod_divides in Hi as [c ->].
      apply Nat.Div0.mod_divides.
      exists (c + Z.to_nat (n1 / Z.of_nat (width st)))%nat.
      pose proof (Z.div_mod n1 (Z.of_nat (width st)) ltac:(lia)).
      assert (0 <= n1 / Z.of_nat (width st)) by (apply Z.div_pos; lia). nia. }
  eexists. eexists.
  split; [apply run_final_state, Hv1|].
  split; [apply run_final_state, Hv2|].
  rewrite final_state_split by assumption.
  apply run_final_state, Hv.
Qed.

Lemma split_call_witness :
  0 <= 8 /\ 0 <= 1 /\
  8 mod Z.of_nat (width A_AVX2) = 0 /\
  valid_call A_AVX2 wide_state 16 0 (8 + 1) /\
  exists s1 s2,
    run A_AVX2 16%nat 0%nat neg_one_half one_half 8 wide_state = Some (tt, s1) /\
    run A_AVX2 (16 + Z.to_nat 8)%nat (0 + Z.to_nat 8)%nat neg_one_half one_half 1 s1
    = Some (tt, s2) /\
    run A_AVX2 16%nat 0%nat neg_one_half one_half (8 + 1) wide_state = Some (tt, s2).
Proof.
  assert (H1 : 0 <= 8) by lia. assert (H2 : 0 <= 1) by lia.
  assert (Hm : 8 mod Z.of_nat (width A_AVX2) = 0) by reflexivity.
  assert (Hv : valid_call A_AVX2 wide_state 16 0 (8 + 1)) by valid_call_at.
  split; [exact H1|]. split; [exact H2|]. split; [exact Hm|]. split; [exact Hv|].
  exact (split_call A_AVX2 wide_state 16 0 neg_one_half one_half 8 1 H1 H2 Hm Hv).
Defined.

(** In the first loop of a vector entry point the test against [min] wins:
    for every bounds, an element of the first [W * (num_points / W)] gets
    [x < min ? min : (x > max ? max : x)], the two tests in the order
    opposite to the scalar loop's. *)
Theorem first_loop_prefers_min st s out in_ min max num_points i x :
  is_vector st = true ->
  valid_call st s out in_ num_points ->
  (i < Z.to_nat (num_points / Z.of_nat (width st)) * width st)%nat ->
  heap s !! (in_ + i)%nat = Some x ->
  exists s',
    run st out in_ min max num_points s = Some (tt, s') /\
    heap s' !! (out + i)%nat
    = Some (if flt x min then min else if fgt x max then max else x).
Proof.
  intros Hvec Hv Hi Hx.
  assert (Hn : 0 <= num_points) by (destruct Hv as [[? _] _]; assumption).
  assert (Hm : main_points st num_points
               = (Z.to_nat (num_points / Z.of_nat (width st)) * width st)%nat)
    by (unfold main_points, full_groups; rewrite Hvec; reflexivity).
  pose proof (main_points_le st num_points Hn) as Hle.
  eexists. split; [apply run_final_state, Hv|].
  rewrite final_lookup, Hx by (try exact Hv; lia). simpl.
  rewrite elem_main by lia. rewrite select_lane_eq. reflexivity.
Qed.

Lemma first_loop_prefers_min_witness :
  is_vector A_SSE4_1 = true /\
  valid_call A_SSE4_1 five_ones_state 8 0 5 /\
  (2 < Z.to_nat (5 / Z.of_nat (width A_SSE4_1)) * width A_SSE4_1)%nat /\
  heap five_ones_state !! (0 + 2)%nat = Some one /\
  exists s',
    run A_SSE4_1 8%nat 0%nat two zero 5 five_ones_state = Some (tt, s') /\
    heap s' !! (8 + 2)%nat
    = Some (if flt one two then two else if fgt one zero then zero else one).
Proof.
  assert (Hv : valid_call A_SSE4_1 five_ones_state 8 0 5) by valid_call_at.
  assert (Hi : (2 < Z.to_nat (5 / Z.of_nat (width A_SSE4_1)) * width A_SSE4_1)%nat)
    by (vm_compute; lia).
  split; [reflexivity|]. split; [exact Hv|]. split; [exact Hi|]. split; [reflexivity|].
  exact (first_loop_prefers_min A_SSE4_1 five_ones_state 8 0 two zero 5 2 one
           eq_refl Hv Hi eq_refl).
Defined.

(** Where [min <= max], clamping a buffer in place and then clamping it in
    place again, with the same or another entry point, changes no cell the
    second time. *)
Theorem second_call_in_place_changes_nothing st1 st2 s p min max num_points :
  valid_call st1 s p p num_points ->
  valid_call st2 s p p num_points ->
  fle min max = true ->
  exists s1 s2,
    run st1 p p min max num_points s = Some (tt, s1) /\
    run st2 p p min max num_points s1 = Some (tt, s2) /\
    heap s2 = heap s1.
Proof.
  intros Hv1 Hv2 Hle. pose proof (fle_not_fgt _ _ Hle) as Hinv.
  assert (Hn : 0 <= num_points) by (destruct Hv1 as [[? _] _]; assumption).
  assert (Hv2' : valid_call st2 (final_state st1 p p min max num_points s) p p num_points).
  { unfold valid_call. rewrite final_length. exact Hv2. }
  eexists. eexists.
  split; [apply run_final_state, Hv1|].
  split; [apply run_final_state, Hv2'|].
  apply list_eq. intros a.
  destruct (decide (p <= a < p + Z.to_nat num_points)%nat) as [Ha|Ha].
  - replace a with (p + (a - p))%nat by lia.
    rewrite (final_lookup st2) by (try exact Hv2'; lia).
    rewrite (final_lookup st1) by (try exact Hv1; lia).
    destruct (heap s !! (p + (a - p))%nat) as [x|]; [|reflexivity]. simpl.
    rewrite !elem_clamp by exact Hinv. rewrite clamp_clamp by exact Hle. reflexivity.
  - apply final_frame; [exact Hn|lia].
Qed.

Lemma second_call_in_place_changes_nothing_witness :
  valid_call A_SSE4_1 doc_in_place 0 0 4 /\
  valid_call Generic doc_in_place 0 0 4 /\
  fle neg_one_half one_half = true /\
  exists s1 s2,
    run A_SSE4_1 0%nat 0%nat neg_one_half one_half 4 doc_in_place = Some (tt, s1) /\
    run Generic 0%nat 0%nat neg_one_half one_half 4 s1 = Some (tt, s2) /\
    heap s2 = heap s1.
Proof.
  assert (Hv1 : valid_call A_SSE4_1 doc_in_place 0 0 4) by valid_call_at.
  assert (Hv2 : valid_call Generic doc_in_place 0 0 4) by valid_call_at.
  split; [exact Hv1|]. split; [exact Hv2|]. split; [reflexivity|].
  exact (second_call_in_place_changes_nothing A_SSE4_1 Generic doc_in_place 0
           neg_one_half one_half 4 Hv1 Hv2 eq_refl).
Defined.

(** A NaN lower bound switches the lower clamp off: on a valid call of any
    entry point with [min] a NaN, every element gets [x > max ? max : x]. *)
Theorem nan_min_disables_lower_bound st s out in_ min max num_points i x :
  valid_call st s out in_ num_points ->
  is_nan min = true ->
  (i < Z.to_nat num_points)%nat ->
  heap s !! (in_ + i)%nat = Some x ->
  exists s',
    run st out in_ min max num_points s = Some (tt, s') /\
    heap s' !! (out + i)%nat = Some (if fgt x max then max else x).
Proof.
  intros Hv Hnan Hi Hx.
  eexists. split; [apply run_final_state, Hv|].
  rewrite final_lookup, Hx by assumption. simpl. f_equal.
  unfold elem. destruct (decide _).
  - rewrite select_lane_eq, (flt_nan_r _ _ Hnan). reflexivity.
  - unfold clamp. rewrite (flt_nan_r _ _ Hnan). destruct (fgt x max); reflexivity.
Qed.

Lemma nan_min_disables_lower_bound_witness :
  valid_call A_SSE4_1 doc_state 4 0 4 /\
  is_nan qnan = true /\
  (0 < Z.to_nat 4)%nat /\
  heap doc_state !! (0 + 0)%nat = Some neg_two /\
  exists s',
    run A_SSE4_1 4%nat 0%nat qnan one 4 doc_state = Some (tt, s') /\
    heap s' !! (4 + 0)%nat = Some (if fgt neg_two one then one else neg_two).
Proof.
  assert (Hv : valid_call A_SSE4_1 doc_state 4 0 4) by valid_call_at.
  assert (Hi : (0 < Z.to_nat 4)%nat) by (simpl; lia).
  split; [exact Hv|]. split; [reflexivity|]. split; [exact Hi|]. split; [reflexivity|].
  exact (nan_min_disables_lower_bound A_SSE4_1 doc_state 4 0 qnan one 4 0 neg_two
           Hv eq_refl Hi eq_refl).
Defined.

(** A NaN upper bound switches the upper clamp off: on a valid call of any
    entry point with [max] a NaN, every element gets [x < min ? min : x]. *)
Theorem nan_max_disables_upper_bound st s out in_ min max num_points i x :
  valid_call st s out in_ num_points ->
  is_nan max = true ->
  (i < Z.to_nat num_points)%nat ->
  heap s !! (in_ + i)%nat = Some x ->
  exists s',
    run st out in_ min max num_points s = Some (tt, s') /\
    heap s' !! (out + i)%nat = Some (if flt x min then min else x).
Proof.
  intros Hv Hnan Hi Hx.
  eexists. split; [apply run_final_state, Hv|].
  rewrite final_lookup, Hx by assumption. simpl. f_equal.
  unfold elem. destruct (decide _).
  - rewrite select_lane_eq, (flt_nan_l _ _ Hnan). reflexivity.
  - unfold clamp, fgt. rewrite (flt_nan_l _ _ Hnan). reflexivity.
Qed.

Lemma nan_max_disables_upper_bound_witness :
  valid_call U_AVX2 wide_state 16 0 9 /\
  is_nan qnan = true /\
  (4 < Z.to_nat 9)%nat /\
  heap wide_state !! (0 + 4)%nat = Some five /\
  exists s',
    run U_AVX2 16%nat 0%nat one qnan 9 wide_state = Some (tt, s') /\
    heap s' !! (16 + 4)%nat = Some (if flt five one then one else five).
Proof.
  assert (Hv : valid_call U_AVX2 wide_state 16 0 9) by valid_call_at.
  assert (Hi : (4 < Z.to_nat 9)%nat) by (simpl; lia).
  split; [exact Hv|]. split; [reflexivity|]. split; [exact Hi|]. split; [reflexivity|].
  exact (nan_max_disables_upper_bound U_AVX2 wide_state 16 0 one qnan 9 4 five
           Hv eq_refl Hi eq_refl).
Defined.

(** Where [min <= max], every entry point keeps the order of the elements:
    if input [i] is at most input [j], output [i] is at most output [j]. *)
Theorem order_preserved st s out in_ min max num_points i j x y :
  valid_call st s out in_ num_points ->
  fle min max = true ->
  (i < Z.to_nat num_points)%nat ->
  (j < Z.to_nat num_points)%nat ->
  heap s !! (in_ + i)%nat = Some x ->
  heap s !! (in_ + j)%nat = Some y ->
  fle x y = true ->
  exists s' x' y',
    run st out in_ min max num_points s = Some (tt, s') /\
    heap s' !! (out + i)%nat = Some x' /\
    heap s' !! (out + j)%nat = Some y' /\
    fle x' y' = true.
Proof.
  intros Hv Hle Hi Hj Hx Hy Hxy. pose proof (fle_not_fgt _ _ Hle) as Hinv.
  exists (final_state st out in_ min max num_points s),
         (clamp min max x), (clamp min max y).
  split; [apply run_final_state, Hv|].
  split; [|split].
  - rewrite final_lookup, Hx by assumption. simpl.
    rewrite elem_clamp by exact Hinv. reflexivity.
  - rewrite final_lookup, Hy by assumption. simpl.
    rewrite elem_clamp by exact Hinv. reflexivity.
  - apply clamp_monotone; assumption.
Qed.

Lemma order_preserved_witness :
  valid_call U_AVX2 wide_state 16 0 9 /\
  fle neg_one_half one_half = true /\
  (0 < Z.to_nat 9)%nat /\
  (8 < Z.to_nat 9)%nat /\
  heap wide_state !! (0 + 0)%nat = Some neg_two /\
  heap wide_state !! (0 + 8)%nat = Some one_half /\
  fle neg_two one_half = true /\
  exists s' x' y',
    run U_AVX2 16%nat 0%nat neg_one_half one_half 9 wide_state = Some (tt, s') /\
    heap s' !! (16 + 0)%nat = Some x' /\
    heap s' !! (16 + 8)%nat = Some y' /\
    fle x' y' = true.
Proof.
  assert (Hv : valid_call U_AVX2 wide_state 16 0 9) by valid_call_at.
  assert (Hi : (0 < Z.to_nat 9)%nat) by (simpl; lia).
  assert (Hj : (8 < Z.to_nat 9)%nat) by (simpl; lia).
  split; [exact Hv|]. split; [reflexivity|]. split; [exact Hi|]. split; [exact Hj|].
  split; [reflexivity|]. split; [reflexivity|]. split; [reflexivity|].
  exact (order_preserved U_AVX2 wide_state 16 0 neg_one_half one_half 9 0 8
           neg_two one_half Hv eq_refl Hi Hj eq_refl eq_refl eq_refl).
Defined.

End MoreProperties.
